(** * Client-side lease lifecycle manager and shutdown coordinator

    A shallow embedding of [LeaseManager] (lease-manager.ts) and of the
    signal handling of lifecycle.ts.

    Conventions of the embedding:
    - clock readings and the millisecond durations the source only adds,
      subtracts and compares (timeouts, polling intervals, the rate-limit
      wait) are integers ([Z]);
    - the numbers the source multiplies and rounds (a TTL in seconds, a
      remaining-quota fraction) and what it computes from them (a timer
      interval, a percentage) are JavaScript numbers, IEEE 754 binary64
      values ([number]): every product is rounded to the nearest
      representable value, ties to even, and NaN, the infinities and the
      two zeros are values like the others;
    - an [async] method is a computation in the monad [M]: it threads the
      manager's fields, can throw, and records the network requests, timer
      operations and callback invocations it performs, in order;
    - the answers of the outside world (broker replies, clock readings) are
      arguments of the operation that consumes them;
    - an operation runs from entry to completion without another timer or
      caller interleaving at its suspension points; the one interleaving
      that is modelled is the watchdog of the shutdown coordinator, which
      can fire while [release] waits for the answer to its request. *)

From Stdlib Require Import ZArith QArith Qround SpecFloat String List Bool Lia.
Import ListNotations.

Open Scope Z_scope.

(** ** JavaScript numbers *)

Definition number : Type := spec_float.

Module Num.

(** binary64: 53 bits of mantissa, infinities at exponent 1024. *)
Definition prec : Z := 53.
Definition emax : Z := 1024.

(** The number an integer literal denotes (exact up to 2^53). *)
Definition of_Z (z : Z) : number := binary_normalize prec emax z 0 false.

Definition mul : number -> number -> number := SFmul prec emax.
Definition div : number -> number -> number := SFdiv prec emax.

(** The number a decimal literal [n / d] denotes, [d] a power of ten, in
    the source text or in a JSON body: the nearest representable value. *)
Definition decimal (n d : Z) : number := div (of_Z n) (of_Z d).

(** [x < y] and [x <= y]: false as soon as one side is NaN. *)
Definition ltb : number -> number -> bool := SFltb.
Definition leb : number -> number -> bool := SFleb.

(** The numbers that are falsy: [+0], [-0] and NaN. *)
Definition falsy (x : number) : bool :=
  match x with
  | S754_zero _ | S754_nan => true
  | _ => false
  end.

(** Same value, same representation. *)
Definition eqb (x y : number) : bool :=
  match x, y with
  | S754_zero s, S754_zero s' => Bool.eqb s s'
  | S754_infinity s, S754_infinity s' => Bool.eqb s s'
  | S754_nan, S754_nan => true
  | S754_finite s m e, S754_finite s' m' e' => Bool.eqb s s' && Pos.eqb m m' && Z.eqb e e'
  | _, _ => false
  end.

(** The mantissa of a finite number, with its sign. *)
Definition signed (s : bool) (m : positive) : Z := if s then Zneg m else Zpos m.


End Num.

(** [Math.floor]: the greatest integer not above [x]; NaN, the infinities
    and the zeros are returned as they are. A finite number with a
    non-negative exponent is an integer already. *)
Definition Math_floor (x : number) : number :=
  match x with
  | S754_finite s m e =>
      if 0 <=? e then x
      else Num.of_Z (Z.shiftr (Num.signed s m) (- e))
  | _ => x
  end.

(** [Math.round]: the integer nearest to [x], a tie going towards
    [+Infinity]; a result of zero keeps the sign of [x]. *)
Definition Math_round (x : number) : number :=
  match x with
  | S754_finite s m e =>
      if 0 <=? e then x
      else binary_normalize Num.prec Num.emax
             (Z.shiftr (Num.signed s m + 2 ^ (- e - 1)) (- e)) 0 s
  | _ => x
  end.

(** ** Constants of lease-manager.ts *)

Definition FETCH_TIMEOUT_MS : Z := 10000.
Definition DEFAULT_HEARTBEAT_RATIO : number := Num.decimal 5 10.
Definition DEFAULT_IDLE_TIMEOUT_MS : Z := 20 * 60 * 1000.
Definition IDLE_CHECK_INTERVAL_MS : number := Num.mul (Num.of_Z 60) (Num.of_Z 1000).
Definition DEFAULT_QUOTA_CHECK_INTERVAL_MS : Z := 2 * 60 * 1000.
Definition DEFAULT_LOW_QUOTA_THRESHOLD : number := Num.decimal 2 10.
Definition DEFAULT_MAX_RATE_LIMIT_WAIT_MS : Z := 10 * 1000.

(** ** Data model *)

(** A JS [Date]: milliseconds since the epoch, [None] for an Invalid Date. *)
Definition Date : Type := option Z.

Record LeaseAccount : Type := mkLeaseAccount {
  email : string;
  refreshToken : string;
  projectId : option string
}.

Record LeaseState : Type := mkLeaseState {
  leaseId : Z;
  account : LeaseAccount;
  expiresAt : Date
}.

Inductive Action : Type := wait | switch.

Record RateLimitDecision : Type := mkDecision {
  action : Action;
  waitMs : option Z;
  newAccount : option LeaseAccount
}.

Record QuotaSnapshot : Type := mkSnapshot {
  remaining : number;
  total : Z;
  percentage : number
}.

(** Bodies of the broker's answers, as the interfaces of the source type
    them. *)
Module LeaseAcquireResponse.
Record t : Type := mk {
  lease_id : Z;
  account : string;          (* ciphertext *)
  expires_at : string;
  ttl_seconds : number
}.
End LeaseAcquireResponse.

Module DecryptedAccountData.
Record t : Type := mk {
  email : string;
  refresh_token : string;
  project_id : option string
}.
End DecryptedAccountData.

Module LeaseRenewResponse.
Record t : Type := mk {
  expires_at : string;
  ttl_seconds : number
}.
End LeaseRenewResponse.

(** The report-issue answer is [{new_lease?: LeaseAcquireResponse} |
    LeaseAcquireResponse]: an object that carries a [new_lease] property
    (possibly null), or the lease fields themselves. *)
Inductive ReportIssueBody : Type :=
| Wrapped (new_lease : option LeaseAcquireResponse.t)
| Bare (r : LeaseAcquireResponse.t).

Module QuotaInfo.
Record t : Type := mk {
  remainingFraction : option number;
  resetTime : option string
}.
End QuotaInfo.

Record ModelInfo : Type := mkModelInfo { quotaInfo : option QuotaInfo.t }.

(** A parsed JSON object with values in [A], given by its own properties in
    the order in which [Object.keys], [Object.values] and [Object.entries]
    all list them: the integer-like keys first, in ascending numeric order,
    then the other keys in the order in which the parser created them. *)
Definition Obj (A : Type) : Type := list (string * A).

Definition Object_values {A : Type} (o : Obj A) : list A := map snd o.

Definition Object_entries {A : Type} (o : Obj A) : list (string * A) := o.

Record QuotaData : Type := mkQuotaData { models : option (Obj ModelInfo) }.

Record QuotaReportEntry : Type := mkQuotaReportEntry {
  model_name : string;
  report_percentage : number;
  reset_time : option string
}.

(** ** Effects *)

Inductive TimerKind : Type := Heartbeat | IdleCheck.

Inductive Request : Type :=
| AcquireReq (client_id : string)
| ReleaseReq (lease_id : Z) (client_id : string)
| RenewReq (lease_id : Z) (client_id : string)
| ReportIssueReq (lease_id : Z) (client_id : string) (issue_type : string)
    (reset_time : option string)
| TokenReq (refresh_token : string)
| FetchModelsReq (access_token : string) (project : string)
| QuotaReportReq (account_email : string) (quotas : list QuotaReportEntry).

Inductive Event : Type :=
| EvFetch (req : Request)
| EvSetInterval (k : TimerKind) (delay : number)
| EvClearInterval (k : TimerKind)
| EvCallback.

(** What went wrong inside a [try] block. *)
Inductive Cause : Type :=
| NetworkError                (* fetch rejected *)
| TimeoutAbort                (* fetch aborted after FETCH_TIMEOUT_MS *)
| HttpStatus (status : Z)     (* !response.ok *)
| BadJson                     (* response.json() rejected *)
| NoNewAccount                (* 'No new account available after reporting issue' *)
| DecryptError                (* decryptData threw *)
| InvalidTimeValue            (* RangeError of toISOString on an Invalid Date *)
| TypeError
| CallbackThrew.

Inductive Exn : Type :=
| Raw (c : Cause)
| AcquireFailure (c : Cause)  (* Error(`Failed to acquire lease: ${message}`) *)
| RenewFailure (c : Cause)    (* Error(`Failed to renew lease: ${message}`) *)
| SwitchFailure (c : Cause)   (* Error(`Failed to report issue: ${message}`) *)
| NoActiveLease.

Definition cause_of (e : Exn) : Cause :=
  match e with
  | Raw c | AcquireFailure c | RenewFailure c | SwitchFailure c => c
  | NoActiveLease => TypeError
  end.

(** The answer to one [fetch]: the promise rejects, or a response arrives
    whose body parses ([Some]) or does not ([None]). *)
Inductive Reply (A : Type) : Type :=
| Rejected (c : Cause)
| Responded (status : Z) (body : option A).
Arguments Rejected {A} c.
Arguments Responded {A} status body.

Record Response (A : Type) : Type := mkResponse {
  status : Z;
  body : option A
}.
Arguments mkResponse {A} status body.
Arguments status {A} r.
Arguments body {A} r.

Definition ok {A : Type} (r : Response A) : bool :=
  (200 <=? status r) && (status r <=? 299).

(** What a registered release callback does when it is invoked. *)
Inductive Callback : Type := CbReturns | CbThrows.

(** ** The manager's fields *)

Record LeaseManager : Type := mkLeaseManager {
  clientId : string;
  apiEndpoint : string;
  apiKey : string;
  lease : option LeaseState;
  heartbeatTimer : option number;   (* the delay the timer was armed with *)
  lastActivity : Z;
  idleTimeoutMs : Z;
  idleCheckTimer : option number;
  quotaCheckIntervalMs : Z;
  lowQuotaThreshold : number;
  lastQuotaCheck : Z;
  maxRateLimitWaitMs : Z;
  onReleaseCallback : option Callback
}.

Definition set_lease (v : option LeaseState) (s : LeaseManager) : LeaseManager :=
  mkLeaseManager (clientId s) (apiEndpoint s) (apiKey s) v (heartbeatTimer s)
    (lastActivity s) (idleTimeoutMs s) (idleCheckTimer s) (quotaCheckIntervalMs s)
    (lowQuotaThreshold s) (lastQuotaCheck s) (maxRateLimitWaitMs s) (onReleaseCallback s).

Definition set_heartbeatTimer (v : option number) (s : LeaseManager) : LeaseManager :=
  mkLeaseManager (clientId s) (apiEndpoint s) (apiKey s) (lease s) v
    (lastActivity s) (idleTimeoutMs s) (idleCheckTimer s) (quotaCheckIntervalMs s)
    (lowQuotaThreshold s) (lastQuotaCheck s) (maxRateLimitWaitMs s) (onReleaseCallback s).

Definition set_lastActivity (v : Z) (s : LeaseManager) : LeaseManager :=
  mkLeaseManager (clientId s) (apiEndpoint s) (apiKey s) (lease s) (heartbeatTimer s)
    v (idleTimeoutMs s) (idleCheckTimer s) (quotaCheckIntervalMs s)
    (lowQuotaThreshold s) (lastQuotaCheck s) (maxRateLimitWaitMs s) (onReleaseCallback s).

Definition set_idleCheckTimer (v : option number) (s : LeaseManager) : LeaseManager :=
  mkLeaseManager (clientId s) (apiEndpoint s) (apiKey s) (lease s) (heartbeatTimer s)
    (lastActivity s) (idleTimeoutMs s) v (quotaCheckIntervalMs s)
    (lowQuotaThreshold s) (lastQuotaCheck s) (maxRateLimitWaitMs s) (onReleaseCallback s).

Definition set_lastQuotaCheck (v : Z) (s : LeaseManager) : LeaseManager :=
  mkLeaseManager (clientId s) (apiEndpoint s) (apiKey s) (lease s) (heartbeatTimer s)
    (lastActivity s) (idleTimeoutMs s) (idleCheckTimer s) (quotaCheckIntervalMs s)
    (lowQuotaThreshold s) v (maxRateLimitWaitMs s) (onReleaseCallback s).

Definition set_onReleaseCallback (v : option Callback) (s : LeaseManager) : LeaseManager :=
  mkLeaseManager (clientId s) (apiEndpoint s) (apiKey s) (lease s) (heartbeatTimer s)
    (lastActivity s) (idleTimeoutMs s) (idleCheckTimer s) (quotaCheckIntervalMs s)
    (lowQuotaThreshold s) (lastQuotaCheck s) (maxRateLimitWaitMs s) v.

Definition set_expiresAt (d : Date) (l : LeaseState) : LeaseState :=
  mkLeaseState (leaseId l) (account l) d.

Module LeaseManagerConfig.
Record t : Type := mk {
  apiEndpoint : string;
  apiKey : string;
  idleTimeoutMs : option Z;
  quotaCheckIntervalMs : option Z;
  lowQuotaThreshold : option number;
  maxRateLimitWaitMs : option Z
}.
End LeaseManagerConfig.

(** [a ?? b] *)
Definition nullish {A : Type} (a : option A) (b : A) : A :=
  match a with Some v => v | None => b end.

(** The constructor; [uuid] is the value [generateUUID()] returned and [now]
    the clock reading of the field initialiser of [lastActivity]. *)
Definition new_LeaseManager (uuid : string) (now : Z) (config : LeaseManagerConfig.t)
  : LeaseManager :=
  {| clientId := uuid;
     apiEndpoint := LeaseManagerConfig.apiEndpoint config;
     apiKey := LeaseManagerConfig.apiKey config;
     lease := None;
     heartbeatTimer := None;
     lastActivity := now;
     idleTimeoutMs := nullish (LeaseManagerConfig.idleTimeoutMs config) DEFAULT_IDLE_TIMEOUT_MS;
     idleCheckTimer := None;
     quotaCheckIntervalMs :=
       nullish (LeaseManagerConfig.quotaCheckIntervalMs config) DEFAULT_QUOTA_CHECK_INTERVAL_MS;
     lowQuotaThreshold :=
       nullish (LeaseManagerConfig.lowQuotaThreshold config) DEFAULT_LOW_QUOTA_THRESHOLD;
     lastQuotaCheck := 0;
     maxRateLimitWaitMs :=
       nullish (LeaseManagerConfig.maxRateLimitWaitMs config) DEFAULT_MAX_RATE_LIMIT_WAIT_MS;
     onReleaseCallback := None |}.

(** ** The monad of manager operations *)

Inductive Outcome (A : Type) : Type :=
| Returned (a : A)
| Thrown (e : Exn).
Arguments Returned {A} a.
Arguments Thrown {A} e.

Record Run (A : Type) : Type := mkRun {
  outcome : Outcome A;
  final : LeaseManager;
  effects : list Event
}.
Arguments mkRun {A} outcome final effects.
Arguments outcome {A} r.
Arguments final {A} r.
Arguments effects {A} r.

Definition M (A : Type) : Type := LeaseManager -> Run A.

Definition ret {A : Type} (a : A) : M A :=
  fun s => mkRun (Returned a) s [].

Definition throw {A : Type} (e : Exn) : M A :=
  fun s => mkRun (Thrown e) s [].

Definition bind {A B : Type} (m : M A) (k : A -> M B) : M B :=
  fun s =>
    match m s with
    | mkRun (Returned a) s1 es1 =>
        match k a s1 with
        | mkRun o s2 es2 => mkRun o s2 (es1 ++ es2)
        end
    | mkRun (Thrown e) s1 es1 => mkRun (Thrown e) s1 es1
    end.

(** [try { m } catch (e) { h e }]: what [m] did to the fields before it
    threw stays done. *)
Definition try_catch {A : Type} (m : M A) (h : Exn -> M A) : M A :=
  fun s =>
    match m s with
    | mkRun (Returned a) s1 es1 => mkRun (Returned a) s1 es1
    | mkRun (Thrown e) s1 es1 =>
        match h e s1 with
        | mkRun o s2 es2 => mkRun o s2 (es1 ++ es2)
        end
    end.

Definition gets {A : Type} (f : LeaseManager -> A) : M A :=
  fun s => mkRun (Returned (f s)) s [].

Definition modify (f : LeaseManager -> LeaseManager) : M unit :=
  fun s => mkRun (Returned tt) (f s) [].

Definition emit (e : Event) : M unit :=
  fun s => mkRun (Returned tt) s [e].

Declare Scope lm_scope.
Delimit Scope lm_scope with lm.
Notation "x <- c1 ;; c2" := (bind c1 (fun x => c2))
  (at level 61, c1 at next level, right associativity) : lm_scope.
Notation "c1 ;; c2" := (bind c1 (fun _ => c2))
  (at level 61, right associativity) : lm_scope.
Open Scope lm_scope.

(** [fetch], on either side of its suspension point: the request goes out;
    later the promise rejects or resolves. *)
Definition send (req : Request) : M unit := emit (EvFetch req).

Definition settle {A : Type} (reply : Reply A) : M (Response A) :=
  match reply with
  | Rejected c => throw (Raw c)
  | Responded st b => ret (mkResponse st b)
  end.

Definition fetch {A : Type} (req : Request) (reply : Reply A) : M (Response A) :=
  send req ;; settle reply.

(** [fetchWithTimeout]: [fetch] under an abort timer of FETCH_TIMEOUT_MS; an
    abort is the reply [Rejected TimeoutAbort]. *)
Definition fetchWithTimeout {A : Type} (req : Request) (reply : Reply A) : M (Response A) :=
  fetch req reply.

(** [await response.json()] *)
Definition json {A : Type} (r : Response A) : M A :=
  match body r with
  | Some v => ret v
  | None => throw (Raw BadJson)
  end.

(** JS truthiness of an optional string: [undefined] and [''] are falsy. *)
Definition truthy (o : option string) : option string :=
  match o with
  | Some s => if String.eqb s EmptyString then None else Some s
  | None => None
  end.

(** [a || b] on strings *)
Definition or_else (o : option string) (d : string) : string :=
  match truthy o with Some s => s | None => d end.

(** ** Accessors *)

Definition getAccount (s : LeaseManager) : option LeaseAccount :=
  option_map account (lease s).

Definition getLease (s : LeaseManager) : option LeaseState := lease s.

Definition getLastActivity (s : LeaseManager) : Z := lastActivity s.

Definition getClientId (s : LeaseManager) : string := clientId s.

Definition hasActiveLease (s : LeaseManager) : bool :=
  match lease s with Some _ => true | None => false end.


Definition getMaxRateLimitWaitMs (s : LeaseManager) : Z := maxRateLimitWaitMs s.

Definition onRelease (callback : Callback) : M unit :=
  modify (set_onReleaseCallback (Some callback)).

Definition updateActivity (now : Z) : M unit :=
  modify (set_lastActivity now).

(** ** Timers *)

Definition stopHeartbeat : M unit :=
  t <- gets heartbeatTimer ;;
  match t with
  | Some _ => emit (EvClearInterval Heartbeat) ;; modify (set_heartbeatTimer None)
  | None => ret tt
  end.

(** [Math.floor(ttlSeconds * DEFAULT_HEARTBEAT_RATIO * 1000)] *)
Definition heartbeatIntervalMs (ttlSeconds : number) : number :=
  Math_floor (Num.mul (Num.mul ttlSeconds DEFAULT_HEARTBEAT_RATIO) (Num.of_Z 1000)).

Definition startHeartbeat (ttlSeconds : number) : M unit :=
  stopHeartbeat ;;
  let intervalMs := heartbeatIntervalMs ttlSeconds in
  emit (EvSetInterval Heartbeat intervalMs) ;;
  modify (set_heartbeatTimer (Some intervalMs)).

Definition stopIdleCheck : M unit :=
  t <- gets idleCheckTimer ;;
  match t with
  | Some _ => emit (EvClearInterval IdleCheck) ;; modify (set_idleCheckTimer None)
  | None => ret tt
  end.

Definition startIdleCheck : M unit :=
  stopIdleCheck ;;
  emit (EvSetInterval IdleCheck IDLE_CHECK_INTERVAL_MS) ;;
  modify (set_idleCheckTimer (Some IDLE_CHECK_INTERVAL_MS)).

(** [this.onReleaseCallback()] *)
Definition invoke (cb : Callback) : M unit :=
  emit EvCallback ;;
  match cb with
  | CbReturns => ret tt
  | CbThrows => throw (Raw CallbackThrew)
  end.

(** [date.toISOString()] inside a log line: a RangeError on an Invalid Date. *)
Definition log_toISOString (d : Date) : M unit :=
  match d with
  | Some _ => ret tt
  | None => throw (Raw InvalidTimeValue)
  end.


(** ** Operations that need no collaborator *)

(** [release] up to its [await]: the timers are stopped and the lease is
    forgotten before the request is built. The result is the request to
    send, if a lease was held. *)
Definition release_local : M (option Request) :=
  stopHeartbeat ;;
  stopIdleCheck ;;
  cur <- gets lease ;;
  match cur with
  | None => ret None
  | Some l =>
      let leaseId := leaseId l in
      modify (set_lease None) ;;
      cid <- gets clientId ;;
      ret (Some (ReleaseReq leaseId cid))
  end.

(** [release] from the request on: the answer is only logged, a rejection
    is caught, and the callback runs after the [try] block. *)
Definition release_remote (req : Request) (reply : Reply bool) : M unit :=
  try_catch
    (_ <- fetch req reply ;;
     ret tt)
    (fun _ => ret tt) ;;
  cb <- gets onReleaseCallback ;;
  match cb with
  | Some f => invoke f
  | None => ret tt
  end.

Definition release (reply : Reply bool) : M unit :=
  req <- release_local ;;
  match req with
  | None => ret tt
  | Some q => release_remote q reply
  end.

(** [release] whose request has gone out and has not been answered: what
    has run of it. The result tells whether a request is outstanding. *)
Definition release_pending : M bool :=
  req <- release_local ;;
  match req with
  | None => ret false
  | Some q => send q ;; ret true
  end.
(** ** Operations over the runtime's collaborators *)

(** The largest time value of a [Date], 100,000,000 days from the epoch. *)
Definition MAX_TIME_VALUE : Z := 8640000000000000.

(** [new Date(ms)]: a time value out of range gives an Invalid Date. *)
Definition new_Date (ms : Z) : Date :=
  if Z.abs ms <=? MAX_TIME_VALUE then Some ms else None.

Section Runtime.

(** [decryptData(ciphertext, apiKey)] of crypto.ts (AES-256-GCM, then
    [JSON.parse]); [None] when it throws. *)
Variable decryptData : string -> string -> option DecryptedAccountData.t.

(** [new Date(text)]: [None] is an Invalid Date. *)
Variable parseDate : string -> Date.

(** [date.toISOString()] on a valid date, given by its time value. *)
Variable toISOString : Z -> string.

(** [date.toISOString()]: a RangeError on an Invalid Date. *)
Definition Date_toISOString (d : Date) : M string :=
  match d with
  | Some t => ret (toISOString t)
  | None => throw (Raw InvalidTimeValue)
  end.

(** [hint || new Date(ms).toISOString()] *)
Definition hint_or_date (hint : option string) (ms : Z) : M string :=
  match truthy hint with
  | Some text => ret text
  | None => Date_toISOString (new_Date ms)
  end.

Definition decrypt (ciphertext key : string) : M DecryptedAccountData.t :=
  match decryptData ciphertext key with
  | Some d => ret d
  | None => throw (Raw DecryptError)
  end.

Definition lease_of (data : LeaseAcquireResponse.t) (decrypted : DecryptedAccountData.t)
  : LeaseState :=
  {| leaseId := LeaseAcquireResponse.lease_id data;
     account :=
       {| email := DecryptedAccountData.email decrypted;
          refreshToken := DecryptedAccountData.refresh_token decrypted;
          projectId := DecryptedAccountData.project_id decrypted |};
     expiresAt := parseDate (LeaseAcquireResponse.expires_at data) |}.

(** [now] is the clock reading of [updateActivity]. *)
Definition acquire (reply : Reply LeaseAcquireResponse.t) (now : Z) : M LeaseState :=
  try_catch
    (cid <- gets clientId ;;
     response <- fetchWithTimeout (AcquireReq cid) reply ;;
     (if negb (ok response) then throw (Raw (HttpStatus (status response))) else ret tt) ;;
     data <- json response ;;
     key <- gets apiKey ;;
     decrypted <- decrypt (LeaseAcquireResponse.account data) key ;;
     let l := lease_of data decrypted in
     modify (set_lease (Some l)) ;;
     startHeartbeat (LeaseAcquireResponse.ttl_seconds data) ;;
     updateActivity now ;;
     startIdleCheck ;;
     log_toISOString (expiresAt l) ;;
     ret l)
    (fun error => throw (AcquireFailure (cause_of error))).

Definition renew (reply : Reply LeaseRenewResponse.t) : M unit :=
  cur <- gets lease ;;
  match cur with
  | None => throw NoActiveLease
  | Some l =>
      try_catch
        (cid <- gets clientId ;;
         response <- fetchWithTimeout (RenewReq (leaseId l) cid) reply ;;
         (if negb (ok response) then throw (Raw (HttpStatus (status response))) else ret tt) ;;
         data <- json response ;;
         let expiry := parseDate (LeaseRenewResponse.expires_at data) in
         modify (fun s => set_lease (option_map (set_expiresAt expiry) (lease s)) s) ;;
         stopHeartbeat ;;
         startHeartbeat (LeaseRenewResponse.ttl_seconds data) ;;
         log_toISOString expiry ;;
         ret tt)
        (fun error => throw (RenewFailure (cause_of error)))
  end.

(** The world as [reportIssue] meets it: the broker's answer and the clock
    reading of the [updateActivity] that follows a switch. *)
Record SwitchEnv : Type := mkSwitchEnv {
  sw_reply : Reply ReportIssueBody;
  sw_now : Z
}.

(** ['new_lease' in rawData && rawData.new_lease ? rawData.new_lease : rawData],
    then the check [!data.lease_id || !data.account]. *)
Definition new_lease_of (rawData : ReportIssueBody) : M LeaseAcquireResponse.t :=
  match rawData with
  | Wrapped None => throw (Raw NoNewAccount)
  | Wrapped (Some data) | Bare data =>
      if (LeaseAcquireResponse.lease_id data =? 0)
         || String.eqb (LeaseAcquireResponse.account data) EmptyString
      then throw (Raw NoNewAccount)
      else ret data
  end.

Definition reportIssue (reason : string) (resetTime : option string) (env : SwitchEnv)
  : M LeaseState :=
  cur <- gets lease ;;
  match cur with
  | None => throw NoActiveLease
  | Some l0 =>
      try_catch
        (cid <- gets clientId ;;
         response <- fetchWithTimeout
                       (ReportIssueReq (leaseId l0) cid reason (truthy resetTime))
                       (sw_reply env) ;;
         (if negb (ok response) then throw (Raw (HttpStatus (status response))) else ret tt) ;;
         rawData <- json response ;;
         data <- new_lease_of rawData ;;
         stopHeartbeat ;;
         key <- gets apiKey ;;
         decrypted <- decrypt (LeaseAcquireResponse.account data) key ;;
         let l := lease_of data decrypted in
         modify (set_lease (Some l)) ;;
         startHeartbeat (LeaseAcquireResponse.ttl_seconds data) ;;
         updateActivity (sw_now env) ;;
         startIdleCheck ;;
         ret l)
        (fun error => throw (SwitchFailure (cause_of error)))
  end.

(** The world as [handleRateLimit] meets it: the clock at [updateActivity],
    the clock when the reset hint is computed, and the switch. *)
Record RateLimitEnv : Type := mkRateLimitEnv {
  rl_now : Z;
  rl_now_hint : Z;
  rl_switch : SwitchEnv
}.

Definition handleRateLimit (waitMs : Z) (reason quotaResetTime : option string)
  (env : RateLimitEnv) : M RateLimitDecision :=
  updateActivity (rl_now env) ;;
  threshold <- gets maxRateLimitWaitMs ;;
  if waitMs <=? threshold then
    ret {| action := wait; waitMs := Some waitMs; newAccount := None |}
  else
    try_catch
      (resetTime <- hint_or_date quotaResetTime (rl_now_hint env + waitMs) ;;
       newLease <- reportIssue ("rate_limit:" ++ or_else reason "unknown") (Some resetTime)
                     (rl_switch env) ;;
       ret {| action := switch; waitMs := None; newAccount := Some (account newLease) |})
      (fun _ => ret {| action := wait; waitMs := Some waitMs; newAccount := None |}).

(** *** Quota monitor *)

(** [info.quotaInfo?.remainingFraction ?? 1] *)
Definition fraction_of (info : ModelInfo) : number :=
  match quotaInfo info with
  | Some qi => nullish (QuotaInfo.remainingFraction qi) (Num.of_Z 1)
  | None => Num.of_Z 1
  end.

Definition resetTime_of (info : ModelInfo) : option string :=
  match quotaInfo info with
  | Some qi => QuotaInfo.resetTime qi
  | None => None
  end.

(** One iteration of the loop over [Object.values(quotaData.models || {})];
    the accumulator is [(minRemainingFraction, earliestResetTime)]. *)
Definition scan_step (acc : number * option string) (info : ModelInfo)
  : number * option string :=
  let fraction := fraction_of info in
  let resetTime := resetTime_of info in
  if Num.ltb fraction (fst acc) then (fraction, resetTime) else acc.

Definition scan_models (infos : list ModelInfo) : number * option string :=
  fold_left scan_step infos (Num.of_Z 1, None).

(** [quotaInfo.remainingFraction || 0], with [quotaInfo = info.quotaInfo || {}] *)
Definition fraction_or_zero (info : ModelInfo) : number :=
  match quotaInfo info with
  | Some qi =>
      match QuotaInfo.remainingFraction qi with
      | Some f => if Num.falsy f then Num.of_Z 0 else f
      | None => Num.of_Z 0
      end
  | None => Num.of_Z 0
  end.

Definition report_entry (m : string * ModelInfo) : QuotaReportEntry :=
  {| model_name := fst m;
     report_percentage := Math_round (Num.mul (fraction_or_zero (snd m)) (Num.of_Z 100));
     reset_time := resetTime_of (snd m) |}.

(** Called without [await]: it runs up to its own [fetch], whose answer is
    only logged. *)
Definition reportQuotaToServer (ms : Obj ModelInfo) : M unit :=
  cur <- gets lease ;;
  match cur with
  | None => ret tt
  | Some l =>
      match map report_entry (Object_entries ms) with
      | [] => ret tt
      | quotas => emit (EvFetch (QuotaReportReq (email (account l)) quotas))
      end
  end.

(** The world as [checkQuota] meets it. *)
Record QuotaEnv : Type := mkQuotaEnv {
  q_now : Z;                      (* Date.now() on entry *)
  q_token : Reply string;         (* the token endpoint; the body is access_token *)
  q_models : Reply QuotaData;     (* fetchAvailableModels *)
  q_now_fallback : Z;             (* Date.now() when the 24 h fallback is computed *)
  q_switch : SwitchEnv
}.

Definition checkQuota (env : QuotaEnv) : M (option QuotaSnapshot) :=
  cur <- gets lease ;;
  match cur with
  | None => ret None
  | Some l =>
      let now := q_now env in
      last <- gets lastQuotaCheck ;;
      interval <- gets quotaCheckIntervalMs ;;
      if now - last <? interval then ret None
      else
        modify (set_lastQuotaCheck now) ;;
        try_catch
          (tokenResponse <- fetchWithTimeout (TokenReq (refreshToken (account l)))
                              (q_token env) ;;
           if negb (ok tokenResponse) then ret None
           else
             accessToken <- json tokenResponse ;;
             quotaResponse <- fetchWithTimeout
                                (FetchModelsReq accessToken (or_else (projectId (account l)) EmptyString))
                                (q_models env) ;;
             if negb (ok quotaResponse) then ret None
             else
               quotaData <- json quotaResponse ;;
               let ms := nullish (models quotaData) [] in
               let scanned := scan_models (Object_values ms) in
               let minRemainingFraction := fst scanned in
               let earliestResetTime := snd scanned in
               let remaining := Math_round (Num.mul minRemainingFraction (Num.of_Z 100)) in
               let total := 100 in
               let percentage := minRemainingFraction in
               reportQuotaToServer ms ;;
               threshold <- gets lowQuotaThreshold ;;
               (if Num.leb percentage threshold then
                  try_catch
                    (resetTime <- hint_or_date earliestResetTime
                                    (q_now_fallback env + 24 * 60 * 60 * 1000) ;;
                     _ <- reportIssue "quota_exhausted" (Some resetTime) (q_switch env) ;;
                     ret tt)
                    (fun _ => ret tt)
                else ret tt) ;;
               ret (Some {| remaining := remaining; total := total; percentage := percentage |}))
          (fun _ => ret None)
  end.

(** *** Timer callbacks *)

(** One heartbeat tick: [this.renew().then(() => this.checkQuota()).catch(log)]. *)
Definition heartbeatTick (reply : Reply LeaseRenewResponse.t) (env : QuotaEnv) : M unit :=
  try_catch (renew reply ;; _ <- checkQuota env ;; ret tt) (fun _ => ret tt).

(** One idle-check tick at clock reading [now]. *)
Definition idleTick (now : Z) (reply : Reply bool) : M unit :=
  last <- gets lastActivity ;;
  timeout <- gets idleTimeoutMs ;;
  held <- gets hasActiveLease ;;
  if (timeout <=? now - last) && held then release reply else ret tt.

End Runtime.
(** ** Shutdown coordinator (lifecycle.ts) *)

Module Lifecycle.

Definition WATCHDOG_TIMEOUT_MS : Z := 10000.

Inductive Signal : Type := SIGTERM | SIGINT | SIGHUP.

Definition Signal_eqb (a b : Signal) : bool :=
  match a, b with
  | SIGTERM, SIGTERM | SIGINT, SIGINT | SIGHUP, SIGHUP => true
  | _, _ => false
  end.

Inductive ProcEvent : Type :=
| EvWatchdogStart (ms : Z)        (* setTimeout(..., WATCHDOG_TIMEOUT_MS) *)
| EvWatchdogClear                 (* clearTimeout(watchdog) *)
| EvExit (code : Z)               (* process.exit(code), from the watchdog *)
| EvManager (e : Event).          (* what leaseManagerRef.release() did *)

(** How the broker answers the release request of a shutdown: before the
    watchdog fires, or not. [release] uses [fetch] without a timeout, so
    the answer can take longer than the watchdog waits. *)
Inductive Answer : Type :=
| InTime (reply : Reply bool)
| TooLate.

(** The module-level variables, and the listeners the module has added to
    [process]: one entry of [signalListeners] per [process.on(sig,
    handleShutdown)], in registration order. After [EvExit] the process is
    gone; its record stays, with the guard set, so that no listener does
    anything any more. *)
Record Process : Type := mkProcess {
  isShuttingDown : bool;
  leaseManagerRef : option LeaseManager;
  signalListeners : list Signal;
  beforeExitListeners : nat
}.

Definition initial : Process :=
  {| isShuttingDown := false;
     leaseManagerRef := None;
     signalListeners := [];
     beforeExitListeners := 0%nat |}.

Definition initLifecycle (leaseManager : LeaseManager) (p : Process) : Process :=
  let p1 := mkProcess (isShuttingDown p) (Some leaseManager) (signalListeners p)
              (beforeExitListeners p) in
  if isShuttingDown p1 then p1
  else mkProcess (isShuttingDown p1) (leaseManagerRef p1)
         (signalListeners p1 ++ [SIGTERM; SIGINT; SIGHUP])
         (S (beforeExitListeners p1)).

(** [await leaseManagerRef.release()] inside [try]/[catch]: a rejection is
    logged and dropped. *)
Definition release_ref (reply : Reply bool) (ref : option LeaseManager)
  : option LeaseManager * list ProcEvent :=
  match ref with
  | Some m =>
      let r := release reply m in
      (Some (final r), map EvManager (effects r))
  | None => (None, [])
  end.

(** The same [await] while the watchdog runs. Either [release] settles,
    and [clearTimeout] is reached; or its request is still unanswered when
    the watchdog fires, and the watchdog's [process.exit(1)] ends the
    process there. *)
Definition release_watched (answer : Answer) (ref : option LeaseManager)
  : option LeaseManager * list ProcEvent :=
  match answer, ref with
  | InTime reply, _ =>
      let released := release_ref reply ref in
      (fst released, snd released ++ [EvWatchdogClear])
  | TooLate, Some m =>
      let r := release_pending m in
      (Some (final r),
       map EvManager (effects r)
       ++ match outcome r with
          | Returned true => [EvExit 1]
          | _ => [EvWatchdogClear]
          end)
  | TooLate, None => (None, [EvWatchdogClear])
  end.

(** One invocation of [handleShutdown]. The guard is read and set before the
    first suspension point, so an invocation is atomic with respect to it. *)
Definition handleShutdown (signal : Signal) (answer : Answer) (p : Process)
  : Process * list ProcEvent :=
  if isShuttingDown p then (p, [])
  else
    let released := release_watched answer (leaseManagerRef p) in
    (mkProcess true (fst released) (signalListeners p) (beforeExitListeners p),
     [EvWatchdogStart WATCHDOG_TIMEOUT_MS] ++ snd released).

(** The ['beforeExit'] listener. *)
Definition beforeExitHook (reply : Reply bool) (p : Process) : Process * list ProcEvent :=
  match isShuttingDown p, leaseManagerRef p with
  | false, Some _ =>
      let released := release_ref reply (leaseManagerRef p) in
      (mkProcess true (fst released) (signalListeners p) (beforeExitListeners p),
       snd released)
  | _, _ => (p, [])
  end.

(** The process receives [signal]: every listener registered for it runs, in
    registration order. *)
Fixpoint run_listeners (ls : list Signal) (signal : Signal) (answer : Answer)
  (p : Process) : Process * list ProcEvent :=
  match ls with
  | [] => (p, [])
  | l :: rest =>
      if Signal_eqb l signal then
        let r1 := handleShutdown signal answer p in
        let r2 := run_listeners rest signal answer (fst r1) in
        (fst r2, snd r1 ++ snd r2)
      else run_listeners rest signal answer p
  end.

Definition deliver (signal : Signal) (answer : Answer) (p : Process)
  : Process * list ProcEvent :=
  run_listeners (signalListeners p) signal answer p.

Fixpoint deliver_all (signals : list (Signal * Answer)) (p : Process)
  : Process * list ProcEvent :=
  match signals with
  | [] => (p, [])
  | (sig, answer) :: rest =>
      let r1 := deliver sig answer p in
      let r2 := deliver_all rest (fst r1) in
      (fst r2, snd r1 ++ snd r2)
  end.

Definition isShuttingDownNow (p : Process) : bool := isShuttingDown p.

Definition is_watchdog_start (e : ProcEvent) : bool :=
  match e with EvWatchdogStart _ => true | _ => false end.

(** How many times the shutdown sequence was started in a run. *)
Definition sequences_started (es : list ProcEvent) : nat :=
  length (filter is_watchdog_start es).

End Lifecycle.

(** ** A concrete runtime, for examples *)

Module Sample.

Definition decryptData (ciphertext key : string) : option DecryptedAccountData.t :=
  if String.eqb ciphertext "enc:test" then
    Some (DecryptedAccountData.mk "test@example.com" "refresh-token-123" (Some "project-123"%string))
  else if String.eqb ciphertext "enc:new" then
    Some (DecryptedAccountData.mk "new@example.com" "new-refresh-token" (Some "new-project"%string))
  else None.

Definition parseDate (text : string) : Date :=
  if String.eqb text "2025-01-24T12:00:00.000Z" then Some 1737720000000
  else if String.eqb text "2025-01-24T12:30:00.000Z" then Some 1737721800000
  else if String.eqb text "2025-01-24T13:00:00.000Z" then Some 1737723600000
  else None.

Definition toISOString (ms : Z) : string :=
  if ms =? 1737720000000 then "2025-01-24T12:00:00.000Z"
  else if ms =? 1737721800000 then "2025-01-24T12:30:00.000Z"
  else if ms =? 1737723600000 then "2025-01-24T13:00:00.000Z"
  else "1970-01-01T00:00:00.000Z".

Definition config : LeaseManagerConfig.t :=
  LeaseManagerConfig.mk "https://api.example.com" "test-api-key" None None None None.

(** A freshly constructed manager. *)
Definition fresh : LeaseManager :=
  new_LeaseManager "11111111-1111-4111-8111-111111111111" 1737718200000 config.

Definition MOCK_LEASE_RESPONSE : LeaseAcquireResponse.t :=
  LeaseAcquireResponse.mk 123 "enc:test" "2025-01-24T12:00:00.000Z" (Num.of_Z 1800).

Definition MOCK_RENEW_RESPONSE : LeaseRenewResponse.t :=
  LeaseRenewResponse.mk "2025-01-24T12:30:00.000Z" (Num.of_Z 1800).

Definition newLeaseResponse : LeaseAcquireResponse.t :=
  LeaseAcquireResponse.mk 456 "enc:new" "2025-01-24T13:00:00.000Z" (Num.of_Z 1800).

(** The manager after a successful [acquire]. *)
Definition holding : LeaseManager :=
  final (acquire decryptData parseDate (Responded 200 (Some MOCK_LEASE_RESPONSE))
           1737718200000 fresh).

Definition model (fraction : number) (reset : string) : ModelInfo :=
  mkModelInfo (Some (QuotaInfo.mk (Some fraction) (Some reset))).

(** Two models tied at 10 % remaining; the second resets earlier. *)
Definition tied_models : Obj ModelInfo :=
  [("gemini-3-pro"%string, model (Num.decimal 1 10) "2025-01-25T00:00:00.000Z");
   ("gemini-3-flash"%string, model (Num.decimal 1 10) "2025-01-24T18:00:00.000Z")].

Definition healthy_models : Obj ModelInfo :=
  [("gemini-3-pro"%string, model (Num.decimal 8 10) "2025-01-25T00:00:00.000Z")].

Definition switchEnv : SwitchEnv :=
  mkSwitchEnv (Responded 200 (Some (Bare newLeaseResponse))) 1737718500000.

(** A switch whose new account does not decrypt. *)
Definition undecryptable : SwitchEnv :=
  mkSwitchEnv
    (Responded 200
       (Some (Bare (LeaseAcquireResponse.mk 456 "not-a-ciphertext"
                      "2025-01-24T13:00:00.000Z" (Num.of_Z 1800)))))
    1737718500000.

Definition quotaEnv (now : Z) (token : Reply string) (ms : Obj ModelInfo)
  : QuotaEnv :=
  mkQuotaEnv now token (Responded 200 (Some (mkQuotaData (Some ms)))) now switchEnv.

End Sample.



(** * Properties *)

(** Unfold the operations and the monad down to [match]es on the inputs. *)
Ltac lm_unfold :=
  unfold handleRateLimit, checkQuota, heartbeatTick, idleTick, reportQuotaToServer,
    acquire, renew, reportIssue, release, release_local, release_remote,
    release_pending, new_lease_of, decrypt, lease_of,
    startHeartbeat, stopHeartbeat, startIdleCheck, stopIdleCheck, updateActivity,
    onRelease, invoke, log_toISOString, hint_or_date, Date_toISOString, json, fetchWithTimeout, fetch, send, settle,
    try_catch, bind, gets, modify, emit, ret, throw in *.

(** Reduce projections, field updates and list appends, and nothing else. *)
Ltac lm_simpl :=
  cbn [outcome final effects status body
       clientId apiEndpoint apiKey lease heartbeatTimer lastActivity idleTimeoutMs
       idleCheckTimer quotaCheckIntervalMs lowQuotaThreshold lastQuotaCheck
       maxRateLimitWaitMs onReleaseCallback
       set_lease set_heartbeatTimer set_lastActivity set_idleCheckTimer
       set_lastQuotaCheck set_onReleaseCallback set_expiresAt
       leaseId account expiresAt email refreshToken projectId
       sw_reply sw_now rl_now rl_now_hint rl_switch
       q_now q_token q_models q_now_fallback q_switch
       cause_of app negb andb orb fst snd option_map nullish] in *.

Ltac lm_run := lm_unfold; lm_simpl.

(** Name the fields of manager [s], so that the timers and the lease can be
    taken by cases. *)
Ltac lm_fields s :=
  destruct s as [cid ep key cur hb la ito ic qci lqt lqc mrl cb]; lm_simpl.

(** The network requests among the effects of a run, in order. *)
Definition fetches (es : list Event) : list Request :=
  flat_map (fun e => match e with EvFetch q => [q] | _ => [] end) es.

(** ** Acquire *)

Section AcquireProperties.

Variable decryptData : string -> string -> option DecryptedAccountData.t.
Variable parseDate : string -> Date.

(** The failures of [acquire] that the spec names, with the cause each one
    carries: the request is rejected (transport error, or the abort of the
    request timeout), the status is not a success, the account does not
    decrypt. *)
Inductive acquire_failure (key : string) : Reply LeaseAcquireResponse.t -> Cause -> Prop :=
| af_rejected (c : Cause) :
    acquire_failure key (Rejected c) c
| af_status (st : Z) (b : option LeaseAcquireResponse.t) :
    ok (mkResponse st b) = false ->
    acquire_failure key (Responded st b) (HttpStatus st)
| af_decrypt (st : Z) (data : LeaseAcquireResponse.t) :
    ok (mkResponse st (Some data)) = true ->
    decryptData (LeaseAcquireResponse.account data) key = None ->
    acquire_failure key (Responded st (Some data)) DecryptError.

Lemma acquire_failure_run :
  forall (s : LeaseManager) (reply : Reply LeaseAcquireResponse.t) (now : Z) (c : Cause),
    acquire_failure (apiKey s) reply c ->
    acquire decryptData parseDate reply now s
    = mkRun (Thrown (AcquireFailure c)) s [EvFetch (AcquireReq (clientId s))].
Proof.
  intros s reply now c Hfail.
  destruct Hfail as [c | st b Hok | st data Hok Hdec]; lm_run.
  - reflexivity.
  - rewrite Hok. reflexivity.
  - rewrite Hok. lm_simpl. rewrite Hdec. reflexivity.
Qed.

(** C5. An [acquire] that fails by a non-success status, a timeout, a
    transport error or a decrypt failure raises [AcquireFailure], leaves
    every field of the manager as it was (so no lease is stored:
    [hasActiveLease] stays false, [getAccount] and [getLease] stay null), and
    does nothing but send the request: no timer is started. *)
Theorem acquire_failure_stores_nothing :
  forall (s : LeaseManager) (reply : Reply LeaseAcquireResponse.t) (now : Z) (c : Cause),
    acquire_failure (apiKey s) reply c ->
    let r := acquire decryptData parseDate reply now s in
    outcome r = Thrown (AcquireFailure c)
    /\ final r = s
    /\ effects r = [EvFetch (AcquireReq (clientId s))]
    /\ (hasActiveLease s = false ->
        hasActiveLease (final r) = false
        /\ getAccount (final r) = None
        /\ getLease (final r) = None)
    /\ heartbeatTimer (final r) = heartbeatTimer s
    /\ idleCheckTimer (final r) = idleCheckTimer s.
Proof.
  intros s reply now c Hfail. cbv zeta.
  rewrite (acquire_failure_run s reply now c Hfail). lm_simpl.
  repeat split; auto.
  - unfold hasActiveLease, getAccount in *.
    destruct (lease s); [discriminate | reflexivity].
  - unfold hasActiveLease, getLease in *.
    destruct (lease s); [discriminate | reflexivity].
Qed.

(** A failure outside that list: the account decrypts but
    [expires_at] is no date. The log line that formats the expiry throws
    after the lease was stored and both timers were started, and the
    [catch] reports it as a failed acquire. *)
Lemma acquire_invalid_expiry :
  forall (s : LeaseManager) (st : Z) (data : LeaseAcquireResponse.t)
         (d : DecryptedAccountData.t) (now : Z),
    ok (mkResponse st (Some data)) = true ->
    decryptData (LeaseAcquireResponse.account data) (apiKey s) = Some d ->
    parseDate (LeaseAcquireResponse.expires_at data) = None ->
    let r := acquire decryptData parseDate (Responded st (Some data)) now s in
    outcome r = Thrown (AcquireFailure InvalidTimeValue)
    /\ lease (final r) = Some (lease_of parseDate data d)
    /\ heartbeatTimer (final r)
       = Some (heartbeatIntervalMs (LeaseAcquireResponse.ttl_seconds data))
    /\ idleCheckTimer (final r) = Some IDLE_CHECK_INTERVAL_MS.
Proof.
  intros s st data d now Hok Hdec Hdate. cbv zeta.
  lm_fields s.
  lm_run. rewrite Hok. lm_simpl. rewrite Hdec. lm_simpl. rewrite Hdate.
  destruct hb, ic; lm_simpl; repeat split; reflexivity.
Qed.

End AcquireProperties.

(** ** Heartbeat period *)












Section HeartbeatProperties.

Variable decryptData : string -> string -> option DecryptedAccountData.t.
Variable parseDate : string -> Date.






End HeartbeatProperties.

(** ** Renew *)

(** The failures of [renew] that the spec names: the request is rejected
    (transport error, or the abort of the request timeout) or the status is
    not a success. *)
Inductive renew_failure : Reply LeaseRenewResponse.t -> Cause -> Prop :=
| rf_rejected (c : Cause) :
    renew_failure (Rejected c) c
| rf_status (st : Z) (b : option LeaseRenewResponse.t) :
    ok (mkResponse st b) = false ->
    renew_failure (Responded st b) (HttpStatus st).

Section RenewProperties.

Variable parseDate : string -> Date.

(** C4. [renew] with no lease fails with [NoActiveLease]. With a lease and a
    successful answer, [expiresAt] becomes the returned expiry (id and account
    stay) and the heartbeat is re-armed with the new TTL after the old timer,
    if any, was cancelled. With a lease and a failed call (non-success status,
    timeout, transport error) it raises [RenewFailure] and every field of the
    manager, the lease and its expiry among them, is as before. *)
Theorem renew_spec :
  (forall (s : LeaseManager) (reply : Reply LeaseRenewResponse.t),
      lease s = None ->
      let r := renew parseDate reply s in
      outcome r = Thrown NoActiveLease /\ final r = s /\ effects r = [])
  /\ (forall (s : LeaseManager) (l : LeaseState) (st : Z) (data : LeaseRenewResponse.t),
         lease s = Some l ->
         ok (mkResponse st (Some data)) = true ->
         let r := renew parseDate (Responded st (Some data)) s in
         let period :=
           Math_floor (Num.mul (Num.mul (LeaseRenewResponse.ttl_seconds data)
                                  (Num.decimal 5 10))
                         (Num.of_Z 1000)) in
         lease (final r)
         = Some {| leaseId := leaseId l;
                   account := account l;
                   expiresAt := parseDate (LeaseRenewResponse.expires_at data) |}
         /\ heartbeatTimer (final r) = Some period
         /\ effects r
            = [EvFetch (RenewReq (leaseId l) (clientId s))]
              ++ match heartbeatTimer s with
                 | Some _ => [EvClearInterval Heartbeat]
                 | None => []
                 end
              ++ [EvSetInterval Heartbeat period]
         /\ (parseDate (LeaseRenewResponse.expires_at data) <> None ->
             outcome r = Returned tt))
  /\ (forall (s : LeaseManager) (l : LeaseState) (reply : Reply LeaseRenewResponse.t)
             (c : Cause),
         lease s = Some l ->
         renew_failure reply c ->
         let r := renew parseDate reply s in
         outcome r = Thrown (RenewFailure c)
         /\ final r = s
         /\ lease (final r) = Some l
         /\ effects r = [EvFetch (RenewReq (leaseId l) (clientId s))]).
Proof.
  split; [| split].
  - intros s reply Hl. cbv zeta. lm_fields s. subst cur. lm_run. auto.
  - intros s l st data Hl Hok. cbv zeta. lm_fields s. subst cur.
    lm_run. rewrite Hok. lm_simpl.
    destruct hb; lm_simpl;
      destruct (parseDate (LeaseRenewResponse.expires_at data)); lm_simpl;
      repeat split; try reflexivity; intros H; exfalso; apply H; reflexivity.
  - intros s l reply c Hl Hfail. cbv zeta. lm_fields s. subst cur.
    destruct Hfail as [c | st b Hok]; lm_run.
    + auto.
    + rewrite Hok. lm_simpl. auto.
Qed.

End RenewProperties.

(** ** Switch ([reportIssue]) and the rate-limit decision *)

(** The answers on which [reportIssue] gives up before it reaches the
    decryption: the request is rejected, the status is not a success, the
    body is no JSON, or the body names no new lease. *)
Inductive switch_refused : Reply ReportIssueBody -> Cause -> Prop :=
| sr_rejected (c : Cause) :
    switch_refused (Rejected c) c
| sr_status (st : Z) (b : option ReportIssueBody) :
    ok (mkResponse st b) = false ->
    switch_refused (Responded st b) (HttpStatus st)
| sr_bad_json (st : Z) :
    ok (mkResponse st (@None ReportIssueBody)) = true ->
    switch_refused (Responded st None) BadJson
| sr_null_new_lease (st : Z) :
    ok (mkResponse st (Some (Wrapped None))) = true ->
    switch_refused (Responded st (Some (Wrapped None))) NoNewAccount
| sr_missing_field (st : Z) (b : ReportIssueBody) (data : LeaseAcquireResponse.t) :
    ok (mkResponse st (Some b)) = true ->
    b = Bare data \/ b = Wrapped (Some data) ->
    LeaseAcquireResponse.lease_id data = 0
    \/ LeaseAcquireResponse.account data = EmptyString ->
    switch_refused (Responded st (Some b)) NoNewAccount.

(** The reset time that [handleRateLimit] and [checkQuota] pass to the
    switch: the hint when there is one, else the date [ms] formatted, when
    [ms] is a date. *)
Definition reset_hint (toISOString : Z -> string) (hint : option string) (ms : Z)
  : option string :=
  match truthy hint with
  | Some text => Some text
  | None => option_map toISOString (new_Date ms)
  end.


Lemma hint_or_date_run (toISOString : Z -> string) (hint : option string) (ms : Z)
  (s : LeaseManager) :
  hint_or_date toISOString hint ms s
  = match reset_hint toISOString hint ms with
    | Some text => mkRun (Returned text) s []
    | None => mkRun (Thrown (Raw InvalidTimeValue)) s []
    end.
Proof.
  unfold hint_or_date, reset_hint, Date_toISOString.
  destruct (truthy hint); [reflexivity |].
  destruct (new_Date ms); reflexivity.
Qed.

Section SwitchProperties.

Variable decryptData : string -> string -> option DecryptedAccountData.t.
Variable parseDate : string -> Date.
Variable toISOString : Z -> string.

(** A switch that is refused before the decryption raises [SwitchFailure]
    and leaves every field of the manager as it was. *)
Lemma reportIssue_refused_untouched :
  forall (s : LeaseManager) (l : LeaseState) (reason : string) (resetTime : option string)
         (env : SwitchEnv) (c : Cause),
    lease s = Some l ->
    switch_refused (sw_reply env) c ->
    reportIssue decryptData parseDate reason resetTime env s
    = mkRun (Thrown (SwitchFailure c)) s
        [EvFetch (ReportIssueReq (leaseId l) (clientId s) reason (truthy resetTime))].
Proof.
  intros s l reason resetTime [reply now] c Hl Hfail.
  lm_fields s. subst cur.
  destruct Hfail as [c | st b Hok | st Hok | st Hok | st b data Hok Hb Hmiss];
    lm_run; try rewrite Hok; lm_simpl; try reflexivity.
  assert (Hchk : (LeaseAcquireResponse.lease_id data =? 0)
                 || String.eqb (LeaseAcquireResponse.account data) EmptyString = true).
  { destruct Hmiss as [H0 | H0]; rewrite H0.
    - reflexivity.
    - rewrite String.eqb_refl. apply orb_true_r. }
  destruct Hb as [-> | ->]; lm_simpl; rewrite Hchk; reflexivity.
Qed.

(** C1, where the code departs from it. The manager holds a lease and its
    heartbeat timer is armed; the broker answers with a well-formed new
    lease whose account does not decrypt. [reportIssue] raises
    [SwitchFailure] and keeps the lease (id, account, expiry) and the idle
    timer, but it has already cancelled the heartbeat timer, which stays
    cancelled. *)
Theorem reportIssue_decrypt_failure_stops_heartbeat :
  forall (s : LeaseManager) (l : LeaseState) (period : number) (reason : string)
         (resetTime : option string) (st : Z) (b : ReportIssueBody)
         (data : LeaseAcquireResponse.t) (now : Z),
    lease s = Some l ->
    heartbeatTimer s = Some period ->
    ok (mkResponse st (Some b)) = true ->
    b = Bare data \/ b = Wrapped (Some data) ->
    LeaseAcquireResponse.lease_id data <> 0 ->
    LeaseAcquireResponse.account data <> EmptyString ->
    decryptData (LeaseAcquireResponse.account data) (apiKey s) = None ->
    let r := reportIssue decryptData parseDate reason resetTime
               (mkSwitchEnv (Responded st (Some b)) now) s in
    outcome r = Thrown (SwitchFailure DecryptError)
    /\ lease (final r) = Some l
    /\ idleCheckTimer (final r) = idleCheckTimer s
    /\ heartbeatTimer s = Some period
    /\ heartbeatTimer (final r) = None
    /\ effects r
       = [EvFetch (ReportIssueReq (leaseId l) (clientId s) reason (truthy resetTime));
          EvClearInterval Heartbeat].
Proof.
  intros s l period reason resetTime st b data now Hl Hhb Hok Hb Hid Hacc Hdec.
  cbv zeta.
  apply Z.eqb_neq in Hid. apply String.eqb_neq in Hacc.
  lm_fields s. subst cur hb.
  lm_run. rewrite Hok. lm_simpl.
  destruct Hb as [-> | ->]; lm_simpl; rewrite Hid, Hacc; lm_simpl;
    rewrite Hdec; lm_simpl; repeat split; reflexivity.
Qed.


(** What [handleRateLimit] is above the threshold, in terms of the switch it
    attempts when it has a reset time to report. *)
Lemma handleRateLimit_above :
  forall (s : LeaseManager) (waitMs : Z) (reason quotaResetTime : option string)
         (env : RateLimitEnv),
    maxRateLimitWaitMs s < waitMs ->
    handleRateLimit decryptData parseDate toISOString waitMs reason quotaResetTime env s
    = match reset_hint toISOString quotaResetTime (rl_now_hint env + waitMs) with
      | Some hint =>
          let sw := reportIssue decryptData parseDate
                      ("rate_limit:" ++ or_else reason "unknown") (Some hint)
                      (rl_switch env) (set_lastActivity (rl_now env) s) in
          match outcome sw with
          | Returned l =>
              mkRun (Returned {| action := switch; waitMs := None;
                                 newAccount := Some (account l) |})
                (final sw) (effects sw)
          | Thrown _ =>
              mkRun (Returned {| action := wait; waitMs := Some waitMs; newAccount := None |})
                (final sw) (effects sw)
          end
      | None =>
          mkRun (Returned {| action := wait; waitMs := Some waitMs; newAccount := None |})
            (set_lastActivity (rl_now env) s) []
      end.
Proof.
  intros s waitMs reason quotaResetTime env Hgt. cbv zeta.
  apply Z.leb_gt in Hgt.
  unfold handleRateLimit, updateActivity, try_catch, bind, gets, modify, ret.
  lm_simpl. rewrite Hgt. rewrite hint_or_date_run.
  destruct (reset_hint toISOString quotaResetTime (rl_now_hint env + waitMs)) as [hint |];
    [| reflexivity].
  destruct (reportIssue decryptData parseDate _ _ _ _) as [[l | e] s1 es1];
    lm_simpl; rewrite ?app_nil_r; reflexivity.
Qed.

(** With a lease held, [reportIssue] sends exactly its own request. *)
Lemma reportIssue_fetches :
  forall (s : LeaseManager) (l : LeaseState) (reason : string) (resetTime : option string)
         (env : SwitchEnv),
    lease s = Some l ->
    fetches (effects (reportIssue decryptData parseDate reason resetTime env s))
    = [ReportIssueReq (leaseId l) (clientId s) reason (truthy resetTime)].
Proof.
  intros s l reason resetTime [reply now] Hl.
  lm_fields s. subst cur. lm_run.
  destruct reply as [c | st [[[data |] | data] |]]; lm_simpl; try reflexivity;
    destruct (ok _); lm_simpl; try reflexivity;
    (destruct ((LeaseAcquireResponse.lease_id data =? 0)
               || String.eqb (LeaseAcquireResponse.account data) EmptyString);
     lm_simpl; try reflexivity);
    destruct hb; lm_simpl;
    (destruct (decryptData (LeaseAcquireResponse.account data) key);
     lm_simpl; try reflexivity);
    destruct ic; lm_simpl; reflexivity.
Qed.


End SwitchProperties.

(** ** Release *)

Definition is_callback (e : Event) : bool :=
  match e with EvCallback => true | _ => false end.

(** How many times the release callback was invoked in a run. *)
Definition callbacks (es : list Event) : nat := length (filter is_callback es).

Lemma callbacks_In (es : list Event) : In EvCallback es <-> callbacks es <> 0%nat.
Proof.
  unfold callbacks. induction es as [| e es IH]; cbn [filter length In].
  - split; [intros [] | intros H; exfalso; apply H; reflexivity].
  - destruct e; cbn [is_callback length]; rewrite <- ?IH.
    + split; [intros [H | H]; [discriminate | exact H] | intros H; right; exact H].
    + split; [intros [H | H]; [discriminate | exact H] | intros H; right; exact H].
    + split; [intros [H | H]; [discriminate | exact H] | intros H; right; exact H].
    + split; [intros _; discriminate | intros _; left; reflexivity].
Qed.

Lemma fetches_app (es1 es2 : list Event) :
  fetches (es1 ++ es2) = fetches es1 ++ fetches es2.
Proof. unfold fetches. apply flat_map_app. Qed.

(** [release] by cases on the lease it finds. *)
Lemma release_no_lease (s : LeaseManager) (reply : Reply bool) :
  lease s = None ->
  outcome (release reply s) = Returned tt
  /\ final (release reply s) = set_idleCheckTimer None (set_heartbeatTimer None s)
  /\ fetches (effects (release reply s)) = []
  /\ callbacks (effects (release reply s)) = 0%nat.
Proof.
  intros Hl. lm_fields s. subst cur. lm_run.
  destruct hb, ic; lm_simpl; repeat split; reflexivity.
Qed.

Lemma release_with_lease (s : LeaseManager) (l : LeaseState) (reply : Reply bool) :
  lease s = Some l ->
  final (release reply s)
  = set_lease None (set_idleCheckTimer None (set_heartbeatTimer None s))
  /\ fetches (effects (release reply s)) = [ReleaseReq (leaseId l) (clientId s)]
  /\ callbacks (effects (release reply s))
     = match onReleaseCallback s with Some _ => 1%nat | None => 0%nat end
  /\ outcome (release reply s)
     = match onReleaseCallback s with
       | Some CbThrows => Thrown (Raw CallbackThrew)
       | _ => Returned tt
       end.
Proof.
  intros Hl. lm_fields s. subst cur. lm_run.
  destruct hb, ic, reply, cb as [[|] |]; lm_simpl; repeat split; reflexivity.
Qed.




(** C10. With a release callback registered, [release] invokes it if and
    only if a lease was held on entry, and then exactly once; with no lease
    held it returns without invoking it. *)
Theorem release_callback_iff_lease_held :
  forall (s : LeaseManager) (reply : Reply bool) (cb : Callback),
    onReleaseCallback s = Some cb ->
    let r := release reply s in
    (In EvCallback (effects r) <-> hasActiveLease s = true)
    /\ (hasActiveLease s = true -> callbacks (effects r) = 1%nat)
    /\ (hasActiveLease s = false ->
        callbacks (effects r) = 0%nat /\ outcome r = Returned tt).
Proof.
  intros s reply cb Hcb. cbv zeta.
  rewrite callbacks_In. unfold hasActiveLease.
  destruct (lease s) as [l |] eqn:Hl.
  - destruct (release_with_lease s l reply Hl) as (_ & _ & Hc & _).
    rewrite Hcb in Hc. rewrite Hc.
    split; [split; [reflexivity | discriminate] |].
    split; [reflexivity | discriminate].
  - destruct (release_no_lease s reply Hl) as (Ho & _ & _ & Hc).
    rewrite Hc.
    split; [split; [intros H; exfalso; apply H; reflexivity | discriminate] |].
    split; [discriminate | auto].
Qed.

(** ** Quota monitor *)

(** *** The order of numbers *)

(** A key for [<] on numbers: the class of the number (from [-Infinity] to
    [+Infinity], the two zeros together), then exponent and mantissa, both
    negated below zero. NaN has none. *)
Definition Num_key (x : number) : option (Z * Z * Z) :=
  match x with
  | S754_nan => None
  | S754_infinity true => Some (0, 0, 0)
  | S754_finite true m e => Some (1, - e, Zneg m)
  | S754_zero _ => Some (2, 0, 0)
  | S754_finite false m e => Some (3, e, Zpos m)
  | S754_infinity false => Some (4, 0, 0)
  end.

Definition key_lt (a b : Z * Z * Z) : Prop :=
  fst (fst a) < fst (fst b)
  \/ (fst (fst a) = fst (fst b)
      /\ (snd (fst a) < snd (fst b)
          \/ (snd (fst a) = snd (fst b) /\ snd a < snd b))).

Definition Num_lt (x y : number) : Prop :=
  exists a b : Z * Z * Z, Num_key x = Some a /\ Num_key y = Some b /\ key_lt a b.

Definition Num_le (x y : number) : Prop :=
  exists a b : Z * Z * Z,
    Num_key x = Some a /\ Num_key y = Some b /\ (key_lt a b \/ a = b).

Ltac key_yes :=
  do 2 eexists; split; [reflexivity |]; split; [reflexivity |];
  unfold key_lt; cbn [fst snd]; first [lia | left; lia | right; congruence].

Ltac key_no :=
  let a := fresh "a" in let b := fresh "b" in
  let Ha := fresh "Ha" in let Hb := fresh "Hb" in let H := fresh "H" in
  intros (a & b & Ha & Hb & H); try discriminate Ha; try discriminate Hb;
  inversion Ha; inversion Hb; subst a b; unfold key_lt in H; cbn [fst snd] in H;
  try lia;
  try (destruct H as [H | H]; [lia | inversion H; lia]).

Lemma compare_cont_Eq (m m' : positive) : Pos.compare_cont Eq m m' = (Zpos m ?= Zpos m').
Proof. reflexivity. Qed.

Lemma Num_ltb_lt (x y : number) : Num.ltb x y = true <-> Num_lt x y.
Proof.
  unfold Num.ltb, SFltb, SFcompare, Num_lt.
  destruct x as [[] | [] | | [] m e], y as [[] | [] | | [] m' e']; cbn [Num_key];
    try (split; [discriminate | key_no]; fail);
    try (split; [intros _; key_yes | reflexivity]; fail);
    rewrite compare_cont_Eq;
    destruct (Z.compare_spec e e') as [He | He | He];
    destruct (Z.compare_spec (Zpos m) (Zpos m')) as [Hm | Hm | Hm];
    cbn [CompOpp];
    try (split; [discriminate | key_no]; fail);
    try (split; [intros _; key_yes | reflexivity]; fail).
Qed.

Lemma Num_leb_le (x y : number) : Num.leb x y = true <-> Num_le x y.
Proof.
  unfold Num.leb, SFleb, SFcompare, Num_le.
  destruct x as [[] | [] | | [] m e], y as [[] | [] | | [] m' e']; cbn [Num_key];
    try (split; [discriminate | key_no]; fail);
    try (split; [intros _; key_yes | reflexivity]; fail);
    rewrite compare_cont_Eq;
    destruct (Z.compare_spec e e') as [He | He | He];
    destruct (Z.compare_spec (Zpos m) (Zpos m')) as [Hm | Hm | Hm];
    cbn [CompOpp];
    try (split; [discriminate | key_no]; fail);
    try (split; [intros _; key_yes | reflexivity]; fail).
Qed.

Ltac key_facts :=
  unfold Num_lt, Num_le, key_lt in *;
  repeat match goal with
         | H : exists _, _ |- _ => destruct H as (? & H)
         | H : _ /\ _ |- _ => destruct H as (? & H)
         end;
  repeat match goal with
         | H1 : Num_key ?x = Some ?a, H2 : Num_key ?x = Some ?b |- _ =>
             rewrite H1 in H2; inversion H2; subst; clear H2
         end.

Lemma Num_lt_irrefl (x : number) : ~ Num_lt x x.
Proof. intros H. key_facts. lia. Qed.

Lemma Num_lt_trans (x y z : number) : Num_lt x y -> Num_lt y z -> Num_lt x z.
Proof.
  intros H1 H2. key_facts.
  do 2 eexists. split; [eassumption |]. split; [eassumption |]. lia.
Qed.

Lemma Num_le_lt_trans (x y z : number) : Num_le x y -> Num_lt y z -> Num_lt x z.
Proof.
  intros H1 H2. key_facts.
  do 2 eexists. split; [eassumption |]. split; [eassumption |].
  destruct H1 as [H1 | H1]; [lia | subst; lia].
Qed.

Lemma Num_lt_le (x y : number) : Num_lt x y -> Num_le x y.
Proof.
  intros H. key_facts.
  do 2 eexists. split; [eassumption |]. split; [eassumption |]. left. exact H.
Qed.

Lemma Num_lt_not_le (x y : number) : Num_lt x y -> ~ Num_le y x.
Proof.
  intros H1 H2. key_facts.
  destruct H2 as [H2 | H2]; [lia | subst; lia].
Qed.

Lemma Num_ltb_false (x y : number) : Num.ltb x y = false <-> ~ Num_lt x y.
Proof.
  rewrite <- Num_ltb_lt. destruct (Num.ltb x y); split; try discriminate; auto.
  intros H. exfalso. apply H. reflexivity.
Qed.

Lemma Num_leb_false (x y : number) : Num.leb x y = false <-> ~ Num_le x y.
Proof.
  rewrite <- Num_leb_le. destruct (Num.leb x y); split; try discriminate; auto.
  intros H. exfalso. apply H. reflexivity.
Qed.

(** *** The scan of the models *)

(** What the loop of [checkQuota] computes from accumulator [acc]: either
    no entry is below [fst acc] and the accumulator stands, or the result is
    the fraction and the reset time of the first entry, in the order of
    [Object.values], that attains the least fraction. An entry whose
    fraction is NaN is below nothing and is passed over. *)
Inductive scan_result (acc : number * option string) (infos : list ModelInfo)
  : number * option string -> Prop :=
| scan_kept :
    (forall i, In i infos -> Num.ltb (fraction_of i) (fst acc) = false) ->
    scan_result acc infos acc
| scan_found (pre post : list ModelInfo) (i : ModelInfo) :
    infos = pre ++ i :: post ->
    Num.ltb (fraction_of i) (fst acc) = true ->
    (forall j, In j pre -> Num.leb (fraction_of j) (fraction_of i) = false) ->
    (forall j, In j post -> Num.ltb (fraction_of j) (fraction_of i) = false) ->
    scan_result acc infos (fraction_of i, resetTime_of i).

Lemma fold_scan_step_result :
  forall (infos : list ModelInfo) (acc : number * option string),
    scan_result acc infos (fold_left scan_step infos acc).
Proof.
  induction infos as [| a infos IH]; intros acc; cbn [fold_left].
  - apply scan_kept. intros i [].
  - unfold scan_step at 2.
    destruct (Num.ltb (fraction_of a) (fst acc)) eqn:E.
    + destruct (IH (fraction_of a, resetTime_of a)) as [Hall | pre post i Heq Hlt Hpre Hpost].
      * apply (scan_found acc (a :: infos) [] infos a); auto.
        intros j [].
      * subst infos. cbn [fst] in Hlt.
        apply Num_ltb_lt in E. apply Num_ltb_lt in Hlt.
        apply (scan_found acc (a :: pre ++ i :: post) (a :: pre) post i); auto.
        -- apply Num_ltb_lt. eapply Num_lt_trans; eauto.
        -- intros j [<- | Hj]; auto.
           apply Num_leb_false. apply Num_lt_not_le. exact Hlt.
    + destruct (IH acc) as [Hall | pre post i Heq Hlt Hpre Hpost].
      * apply scan_kept. intros i [<- | Hi]; auto.
      * subst infos.
        apply (scan_found acc (a :: pre ++ i :: post) (a :: pre) post i); auto.
        intros j [<- | Hj]; auto.
        apply Num_leb_false. intros Hle.
        apply Num_ltb_false in E. apply E.
        apply Num_ltb_lt in Hlt. eapply Num_le_lt_trans; eauto.
Qed.

Lemma scan_models_result (infos : list ModelInfo) :
  scan_result (Num.of_Z 1, None) infos (scan_models infos).
Proof. apply fold_scan_step_result. Qed.

(** The scanned fraction is at most 1.0, no entry is below it, and it is
    1.0 or the fraction of an entry. *)
Lemma scan_models_least (infos : list ModelInfo) :
  let m := fst (scan_models infos) in
  Num.leb m (Num.of_Z 1) = true
  /\ (forall i, In i infos -> Num.ltb (fraction_of i) m = false)
  /\ (m = Num.of_Z 1 \/ exists i, In i infos /\ fraction_of i = m)
  /\ (infos = [] -> m = Num.of_Z 1).
Proof.
  cbv zeta.
  destruct (scan_models_result infos) as [Hall | pre post i Heq Hlt Hpre Hpost];
    cbn [fst] in *.
  - repeat split; auto.
  - subst infos. repeat split.
    + apply Num_leb_le. apply Num_lt_le. apply Num_ltb_lt. exact Hlt.
    + intros j Hj. apply in_app_or in Hj. destruct Hj as [Hj | [<- | Hj]].
      * apply Num_ltb_false. intros H. apply Num_lt_le in H.
        apply Num_leb_le in H. rewrite (Hpre j Hj) in H. discriminate.
      * apply Num_ltb_false. apply Num_lt_irrefl.
      * auto.
    + right. exists i. split; [apply in_or_app; right; left |]; reflexivity.
    + intros H. destruct pre; discriminate.
Qed.

(** Unfold [checkQuota] down to the switch it may attempt, which stays
    folded. *)
Ltac cq_unfold :=
  unfold checkQuota, reportQuotaToServer, fetchWithTimeout, fetch, send, settle, json,
    try_catch, bind, gets, modify, emit, ret, throw in *.

(** The quota report that [reportQuotaToServer] sends, if any. *)
Definition quota_report (l : LeaseState) (ms : Obj ModelInfo) : list Request :=
  match map report_entry (Object_entries ms) with
  | [] => []
  | quotas => [QuotaReportReq (email (account l)) quotas]
  end.

(** The ways a poll fails: the token refresh or the model query is rejected
    (transport error, timeout), answers with a non-success status, or
    answers with a body that is no JSON. *)
Inductive poll_failure (env : QuotaEnv) : Prop :=
| pf_token_rejected (c : Cause) :
    q_token env = Rejected c -> poll_failure env
| pf_token_status (st : Z) (b : option string) :
    q_token env = Responded st b -> ok (mkResponse st b) = false -> poll_failure env
| pf_token_json (st : Z) :
    q_token env = Responded st None -> poll_failure env
| pf_models_rejected (st : Z) (tok : string) (c : Cause) :
    q_token env = Responded st (Some tok) ->
    q_models env = Rejected c -> poll_failure env
| pf_models_status (st : Z) (tok : string) (st2 : Z) (b : option QuotaData) :
    q_token env = Responded st (Some tok) ->
    q_models env = Responded st2 b -> ok (mkResponse st2 b) = false -> poll_failure env
| pf_models_json (st : Z) (tok : string) (st2 : Z) :
    q_token env = Responded st (Some tok) ->
    q_models env = Responded st2 None -> poll_failure env.

Section QuotaProperties.

Variable decryptData : string -> string -> option DecryptedAccountData.t.
Variable parseDate : string -> Date.
Variable toISOString : Z -> string.

Lemma reportIssue_keeps_lastQuotaCheck :
  forall (s : LeaseManager) (reason : string) (resetTime : option string) (env : SwitchEnv),
    lastQuotaCheck (final (reportIssue decryptData parseDate reason resetTime env s))
    = lastQuotaCheck s.
Proof.
  intros s reason resetTime [reply now].
  lm_fields s. lm_run.
  destruct cur as [l0 |]; lm_simpl; [| reflexivity].
  destruct reply as [c | st [[[data |] | data] |]]; lm_simpl; try reflexivity;
    destruct (ok _); lm_simpl; try reflexivity;
    (destruct ((LeaseAcquireResponse.lease_id data =? 0)
               || String.eqb (LeaseAcquireResponse.account data) EmptyString);
     lm_simpl; try reflexivity);
    destruct hb; lm_simpl;
    (destruct (decryptData (LeaseAcquireResponse.account data) key);
     lm_simpl; try reflexivity);
    destruct ic; lm_simpl; reflexivity.
Qed.

Lemma checkQuota_no_lease :
  forall (s : LeaseManager) (env : QuotaEnv),
    lease s = None ->
    checkQuota decryptData parseDate toISOString env s = mkRun (Returned None) s [].
Proof.
  intros s env Hl. lm_fields s. subst cur. cq_unfold. reflexivity.
Qed.

Lemma checkQuota_rate_limited :
  forall (s : LeaseManager) (l : LeaseState) (env : QuotaEnv),
    lease s = Some l ->
    q_now env - lastQuotaCheck s < quotaCheckIntervalMs s ->
    checkQuota decryptData parseDate toISOString env s = mkRun (Returned None) s [].
Proof.
  intros s l env Hl Hlt. apply Z.ltb_lt in Hlt.
  lm_fields s. subst cur. cq_unfold. lm_simpl. rewrite Hlt. reflexivity.
Qed.

(** A successful poll, in full. *)
Lemma checkQuota_poll_run :
  forall (s : LeaseManager) (l : LeaseState) (env : QuotaEnv)
         (st1 st2 : Z) (tok : string) (qd : QuotaData),
    lease s = Some l ->
    quotaCheckIntervalMs s <= q_now env - lastQuotaCheck s ->
    q_token env = Responded st1 (Some tok) ->
    ok (mkResponse st1 (Some tok)) = true ->
    q_models env = Responded st2 (Some qd) ->
    ok (mkResponse st2 (Some qd)) = true ->
    let ms := nullish (models qd) [] in
    let m := fst (scan_models (Object_values ms)) in
    let reset := snd (scan_models (Object_values ms)) in
    let s1 := set_lastQuotaCheck (q_now env) s in
    let snapshot := {| remaining := Math_round (Num.mul m (Num.of_Z 100));
                       total := 100; percentage := m |} in
    let polled := [EvFetch (TokenReq (refreshToken (account l)));
                   EvFetch (FetchModelsReq tok (or_else (projectId (account l)) EmptyString))]
                  ++ map EvFetch (quota_report l ms) in
    checkQuota decryptData parseDate toISOString env s
    = if Num.leb m (lowQuotaThreshold s)
      then match reset_hint toISOString reset
                   (q_now_fallback env + 24 * 60 * 60 * 1000) with
           | Some hint =>
               let sw := reportIssue decryptData parseDate "quota_exhausted" (Some hint)
                           (q_switch env) s1 in
               mkRun (Returned (Some snapshot)) (final sw) (polled ++ effects sw)
           | None => mkRun (Returned (Some snapshot)) s1 polled
           end
      else mkRun (Returned (Some snapshot)) s1 polled.
Proof.
  intros s l [now treply mreply nowf swenv] st1 st2 tok qd Hl Hint Htok Hok1 Hmod Hok2.
  cbv zeta. lm_simpl. subst treply mreply.
  apply Z.ltb_ge in Hint.
  lm_fields s. subst cur.
  cq_unfold. lm_simpl. rewrite Hint. lm_simpl. rewrite Hok1. lm_simpl.
  rewrite Hok2. lm_simpl.
  unfold quota_report.
  destruct (map report_entry (Object_entries (nullish (models qd) []))) as [| q qs];
    cbn [map]; lm_simpl;
    (destruct (Num.leb _ lqt); lm_simpl; [| reflexivity]);
    rewrite hint_or_date_run;
    (destruct (reset_hint toISOString _ _) as [hint |]; lm_simpl; [| reflexivity]);
    (destruct (reportIssue decryptData parseDate _ _ _ _) as [[l' | e'] s2 es2]);
    lm_simpl; rewrite ?app_nil_r; reflexivity.
Qed.

Ltac cq_failed :=
  split; [reflexivity |];
  split; [eexists; cbn [fetches flat_map app]; reflexivity |];
  split; [eexists; reflexivity |];
  intros _; reflexivity.

(** An attempted poll stamps [lastQuotaCheck] with the clock reading taken
    on entry and sends the token request first, whether or not it then
    succeeds; and [checkQuota] never throws. *)
Lemma checkQuota_poll_attempt :
  forall (s : LeaseManager) (l : LeaseState) (env : QuotaEnv),
    lease s = Some l ->
    quotaCheckIntervalMs s <= q_now env - lastQuotaCheck s ->
    let r := checkQuota decryptData parseDate toISOString env s in
    lastQuotaCheck (final r) = q_now env
    /\ (exists rest, fetches (effects r) = TokenReq (refreshToken (account l)) :: rest)
    /\ (exists v, outcome r = Returned v)
    /\ (poll_failure env -> outcome r = Returned None).
Proof.
  intros s l [now treply mreply nowf swenv] Hl Hint. cbv zeta. lm_simpl.
  apply Z.ltb_ge in Hint.
  assert (Hsw := fun hint =>
    reportIssue_keeps_lastQuotaCheck (set_lastQuotaCheck now s) "quota_exhausted"
      (Some hint) swenv).
  lm_fields s. subst cur.
  cq_unfold. lm_simpl. rewrite Hint. lm_simpl.
  destruct treply as [c | st1 [tok |]]; lm_simpl.
  - cq_failed.
  - destruct (ok {| status := st1; body := Some tok |}) eqn:Hok1; lm_simpl.
    2:{ cq_failed. }
    destruct mreply as [c | st2 [qd |]]; lm_simpl.
    + cq_failed.
    + destruct (ok {| status := st2; body := Some qd |}) eqn:Hok2; lm_simpl.
      2:{ cq_failed. }
      destruct (map report_entry (Object_entries (nullish (models qd) []))) as [| q qs];
        lm_simpl;
        (destruct (Num.leb _ lqt); lm_simpl;
         [ rewrite hint_or_date_run;
           destruct (reset_hint toISOString _ _) as [hint |]; lm_simpl;
           [ specialize (Hsw hint);
             destruct (reportIssue decryptData parseDate _ _ _ _) as [[l' | e'] s2 es2];
             lm_simpl
           | ]
         | ]);
        (split; [first [exact Hsw | reflexivity] |]);
        (split; [eexists; cbn [fetches flat_map app]; reflexivity |]);
        (split; [eexists; reflexivity |]);
        intros Hf; exfalso;
        destruct Hf as [c H | st b H Hk | st H | st tk c H H2 | st tk st' b H H2 Hk
                       | st tk st' H H2];
        lm_simpl; try discriminate;
        try (inversion H; subst; congruence);
        try (inversion H2; subst; congruence).
    + destruct (ok {| status := st2; body := None |}); lm_simpl; cq_failed.
  - destruct (ok {| status := st1; body := None |}); lm_simpl; cq_failed.
Qed.

End QuotaProperties.

Section QuotaClaims.

Variable decryptData : string -> string -> option DecryptedAccountData.t.
Variable parseDate : string -> Date.
Variable toISOString : Z -> string.

(** C7, where the code departs from it in the reset time. On a successful
    poll [checkQuota] takes the least remaining fraction over the entries
    (an entry without a fraction counts as 1.0, and the result is 1.0 when
    there are no entries or none is below 1.0) and, with it, the reset time
    of the first entry, in the order of [Object.values], that attains that
    least fraction: reset times are never compared, so of several entries at
    the minimum it is the first whose reset time is taken, not the earliest.
    It returns [{remaining: Math.round(fraction * 100), total: 100,
    percentage: fraction}]. Exactly when the fraction is at or below the
    low-quota threshold it attempts a switch: after the poll's own requests
    it sends one report-issue request with reason [quota_exhausted] and
    that reset time, or, when there is none, the time 24 hours after the
    clock reading. *)
Theorem checkQuota_poll_result :
  forall (s : LeaseManager) (l : LeaseState) (env : QuotaEnv)
         (st1 st2 : Z) (tok : string) (qd : QuotaData),
    lease s = Some l ->
    quotaCheckIntervalMs s <= q_now env - lastQuotaCheck s ->
    q_token env = Responded st1 (Some tok) ->
    ok (mkResponse st1 (Some tok)) = true ->
    q_models env = Responded st2 (Some qd) ->
    ok (mkResponse st2 (Some qd)) = true ->
    let ms := nullish (models qd) [] in
    let infos := Object_values ms in
    let m := fst (scan_models infos) in
    let reset := snd (scan_models infos) in
    let r := checkQuota decryptData parseDate toISOString env s in
    let fallback := q_now_fallback env + 24 * 60 * 60 * 1000 in
    let polled := [TokenReq (refreshToken (account l));
                   FetchModelsReq tok (or_else (projectId (account l)) EmptyString)]
                  ++ quota_report l ms in
    (Num.leb m (Num.of_Z 1) = true
     /\ (forall i, In i infos -> Num.ltb (fraction_of i) m = false)
     /\ (m = Num.of_Z 1 \/ exists i, In i infos /\ fraction_of i = m)
     /\ (infos = [] -> m = Num.of_Z 1))
    /\ scan_result (Num.of_Z 1, None) infos (m, reset)
    /\ outcome r
       = Returned (Some {| remaining := Math_round (Num.mul m (Num.of_Z 100));
                           total := 100;
                           percentage := m |})
    /\ (Num.leb m (lowQuotaThreshold s) = true ->
        forall text : string,
          reset_hint toISOString reset fallback = Some text ->
          fetches (effects r)
          = polled ++ [ReportIssueReq (leaseId l) (clientId s) "quota_exhausted"
                         (truthy (Some text))])
    /\ (Num.leb m (lowQuotaThreshold s) = true ->
        reset_hint toISOString reset fallback = None ->
        fetches (effects r) = polled)
    /\ (Num.leb m (lowQuotaThreshold s) = false -> fetches (effects r) = polled)
    /\ (forall text : string,
          truthy reset = Some text -> reset_hint toISOString reset fallback = Some text)
    /\ (truthy reset = None ->
        Z.abs fallback <= MAX_TIME_VALUE ->
        reset_hint toISOString reset fallback = Some (toISOString fallback)).
Proof.
  intros s l env st1 st2 tok qd Hl Hint Htok Hok1 Hmod Hok2. cbv zeta.
  rewrite (checkQuota_poll_run decryptData parseDate toISOString
             s l env st1 st2 tok qd Hl Hint Htok Hok1 Hmod Hok2).
  set (ms := nullish (models qd) []).
  set (m := fst (scan_models (Object_values ms))).
  set (reset := snd (scan_models (Object_values ms))).
  set (fallback := q_now_fallback env + 24 * 60 * 60 * 1000).
  assert (Hpolled :
    fetches ([EvFetch (TokenReq (refreshToken (account l)));
              EvFetch (FetchModelsReq tok (or_else (projectId (account l)) EmptyString))]
             ++ map EvFetch (quota_report l ms))
    = [TokenReq (refreshToken (account l));
       FetchModelsReq tok (or_else (projectId (account l)) EmptyString)]
      ++ quota_report l ms).
  { cbn [app fetches flat_map]. do 2 f_equal.
    unfold quota_report. destruct (map report_entry (Object_entries ms)); reflexivity. }
  split; [exact (scan_models_least (Object_values ms)) |].
  split.
  { unfold m, reset. rewrite <- surjective_pairing. apply scan_models_result. }
  split; [| split; [| split; [| split; [| split]]]].
  - destruct (Num.leb m (lowQuotaThreshold s)); [| reflexivity].
    destruct (reset_hint toISOString reset fallback); reflexivity.
  - intros Hle text Htext. rewrite Hle, Htext. cbv zeta. cbn [effects].
    rewrite fetches_app, Hpolled. f_equal.
    apply (reportIssue_fetches decryptData parseDate
             (set_lastQuotaCheck (q_now env) s) l). exact Hl.
  - intros Hle Hnone. rewrite Hle, Hnone. cbn [effects]. exact Hpolled.
  - intros Hgt. rewrite Hgt. cbn [effects]. exact Hpolled.
  - intros text Htext. unfold reset_hint. rewrite Htext. reflexivity.
  - intros Hnone Hfb. unfold reset_hint, new_Date. rewrite Hnone.
    apply Z.leb_le in Hfb. rewrite Hfb. reflexivity.
Qed.

(** C8, as the code has it. [checkQuota] returns null without any request
    and without touching a field when no lease is held, and also when it is
    invoked within the minimum interval since the last poll it attempted.
    Otherwise it attempts a poll: it stamps the attempt with the clock
    reading, whether the poll then succeeds or fails, and sends the token
    request. It never throws, and a poll that fails (token refresh or model
    query rejected, timed out, non-success, or not JSON) returns null. *)
Theorem checkQuota_rate_limit :
  forall (s : LeaseManager) (env : QuotaEnv),
    let r := checkQuota decryptData parseDate toISOString env s in
    (exists v, outcome r = Returned v)
    /\ (lease s = None ->
        outcome r = Returned None /\ effects r = [] /\ final r = s)
    /\ (forall l : LeaseState,
          lease s = Some l ->
          q_now env - lastQuotaCheck s < quotaCheckIntervalMs s ->
          outcome r = Returned None /\ effects r = [] /\ final r = s)
    /\ (forall l : LeaseState,
          lease s = Some l ->
          quotaCheckIntervalMs s <= q_now env - lastQuotaCheck s ->
          lastQuotaCheck (final r) = q_now env
          /\ (exists rest, fetches (effects r) = TokenReq (refreshToken (account l)) :: rest)
          /\ (poll_failure env -> outcome r = Returned None)).
Proof.
  intros s env. cbv zeta.
  split; [| split; [| split]].
  - destruct (lease s) as [l |] eqn:Hl.
    + destruct (Z_lt_le_dec (q_now env - lastQuotaCheck s) (quotaCheckIntervalMs s))
        as [Hlt | Hge].
      * rewrite (checkQuota_rate_limited decryptData parseDate toISOString s l env Hl Hlt).
        eexists; reflexivity.
      * apply (checkQuota_poll_attempt decryptData parseDate toISOString s l env Hl Hge).
    + rewrite (checkQuota_no_lease decryptData parseDate toISOString s env Hl).
      eexists; reflexivity.
  - intros Hl.
    rewrite (checkQuota_no_lease decryptData parseDate toISOString s env Hl). auto.
  - intros l Hl Hlt.
    rewrite (checkQuota_rate_limited decryptData parseDate toISOString s l env Hl Hlt). auto.
  - intros l Hl Hge.
    destruct (checkQuota_poll_attempt decryptData parseDate toISOString s l env Hl Hge)
      as (H1 & H2 & _ & H4).
    auto.
Qed.

End QuotaClaims.

(** *** The spec's wording, as definitions *)

(** Following the spec: "the minimum remaining-quota fraction across all
    returned model entries (default 1.0 if the response contains no
    entries)". *)
Definition spec_min_fraction (infos : list ModelInfo) : number :=
  match infos with
  | [] => Num.of_Z 1
  | i :: rest =>
      fold_left (fun m j => if Num.ltb (fraction_of j) m then fraction_of j else m)
        rest (fraction_of i)
  end.

(** The earlier of two ISO-8601 UTC timestamps of one format: on those the
    order of the texts is the order of the instants. *)
Definition earlier (a b : string) : string :=
  if String.leb a b then a else b.

(** Following the spec: "the earliest quota-reset time among entries at that
    minimum". *)
Definition spec_earliest_reset (infos : list ModelInfo) : option string :=
  let m := spec_min_fraction infos in
  let at_min := filter (fun i => SFeqb (fraction_of i) m) infos in
  fold_left
    (fun acc i =>
       match acc, resetTime_of i with
       | Some t, Some u => Some (earlier t u)
       | None, Some u => Some u
       | a, None => a
       end)
    at_min None.

(** Following the spec: "skips (returns empty) if invoked again within a
    configurable minimum interval since the last successful poll"; so a call
    polls when the last successful poll, started at [lastSuccess], is at
    least the interval back. *)
Definition spec_polls (lastSuccess now interval : Z) : bool :=
  interval <=? now - lastSuccess.

(** ** Shutdown coordinator *)

Module LifecycleProperties.
Import Lifecycle.

(** How many times [handleShutdown] is registered for [signal]. *)
Definition registrations (signal : Signal) (p : Process) : nat :=
  length (filter (Signal_eqb signal) (signalListeners p)).

(** [n] calls of [initLifecycle] in a row. *)
Fixpoint init_times (n : nat) (m : LeaseManager) (p : Process) : Process :=
  match n with
  | O => p
  | S k => initLifecycle m (init_times k m p)
  end.

Lemma init_times_guard (n : nat) (m : LeaseManager) (p : Process) :
  isShuttingDown (init_times n m p) = isShuttingDown p.
Proof.
  induction n as [| n IH]; cbn [init_times]; [reflexivity |].
  unfold initLifecycle. cbn [isShuttingDown].
  destruct (isShuttingDown (init_times n m p)) eqn:E; cbn [isShuttingDown]; congruence.
Qed.

Lemma registrations_init (signal : Signal) (m : LeaseManager) (p : Process) :
  isShuttingDown p = false ->
  registrations signal (initLifecycle m p) = S (registrations signal p).
Proof.
  intros Hg. unfold registrations, initLifecycle. cbn [isShuttingDown signalListeners].
  rewrite Hg. cbn [signalListeners].
  rewrite filter_app, length_app.
  destruct signal; cbn; lia.
Qed.

(** C9, where the code departs from it: every call of [initLifecycle] made
    before a shutdown has begun registers [handleShutdown] again for each
    termination signal, and adds one more [beforeExit] listener. After [n]
    calls each signal has [n] registrations, not one. *)
Theorem initLifecycle_registers_on_every_call :
  forall (n : nat) (m : LeaseManager) (signal : Signal),
    registrations signal (init_times n m initial) = n
    /\ beforeExitListeners (init_times n m initial) = n
    /\ registrations signal (initLifecycle m (initLifecycle m initial)) = 2%nat.
Proof.
  intros n m signal.
  split; [| split].
  - induction n as [| n IH]; [reflexivity |].
    cbn [init_times]. rewrite registrations_init, IH; [reflexivity |].
    apply init_times_guard.
  - induction n as [| n IH]; [reflexivity |].
    cbn [init_times]. unfold initLifecycle. cbn [isShuttingDown].
    rewrite (init_times_guard n m initial). cbn [isShuttingDown initial beforeExitListeners].
    rewrite IH. reflexivity.
  - destruct signal; reflexivity.
Qed.

(** Once a shutdown has begun, [initLifecycle] registers nothing. *)
Lemma initLifecycle_after_shutdown (m : LeaseManager) (p : Process) :
  isShuttingDown p = true ->
  signalListeners (initLifecycle m p) = signalListeners p
  /\ beforeExitListeners (initLifecycle m p) = beforeExitListeners p.
Proof.
  intros Hg. unfold initLifecycle. cbn [isShuttingDown]. rewrite Hg. auto.
Qed.

Lemma sequences_started_app (es1 es2 : list ProcEvent) :
  sequences_started (es1 ++ es2) = (sequences_started es1 + sequences_started es2)%nat.
Proof. unfold sequences_started. rewrite filter_app, length_app. reflexivity. Qed.

Lemma sequences_started_manager (es : list Event) :
  sequences_started (map EvManager es) = 0%nat.
Proof.
  unfold sequences_started. induction es as [| e es IH]; [reflexivity | exact IH].
Qed.

Lemma handleShutdown_guarded (signal : Signal) (answer : Answer) (p : Process) :
  isShuttingDown p = true -> handleShutdown signal answer p = (p, []).
Proof. intros Hg. unfold handleShutdown. rewrite Hg. reflexivity. Qed.

Lemma sequences_started_watched (answer : Answer) (ref : option LeaseManager) :
  sequences_started (snd (release_watched answer ref)) = 0%nat.
Proof.
  destruct answer as [reply |], ref as [m |];
    cbn [release_watched release_ref fst snd];
    rewrite ?sequences_started_app, ?sequences_started_manager; try reflexivity.
  destruct (outcome (release_pending m)) as [[|] | e]; reflexivity.
Qed.

Lemma handleShutdown_first (signal : Signal) (answer : Answer) (p : Process) :
  isShuttingDown p = false ->
  isShuttingDown (fst (handleShutdown signal answer p)) = true
  /\ sequences_started (snd (handleShutdown signal answer p)) = 1%nat
  /\ snd (handleShutdown signal answer p)
     = EvWatchdogStart 10000 :: snd (release_watched answer (leaseManagerRef p)).
Proof.
  intros Hg. unfold handleShutdown. rewrite Hg. cbn [fst snd isShuttingDown].
  split; [reflexivity |]. split; [| reflexivity].
  rewrite sequences_started_app, sequences_started_watched. reflexivity.
Qed.

Lemma run_listeners_guarded (ls : list Signal) (signal : Signal) (answer : Answer)
  (p : Process) :
  isShuttingDown p = true -> run_listeners ls signal answer p = (p, []).
Proof.
  intros Hg. induction ls as [| l ls IH]; cbn [run_listeners]; [reflexivity |].
  destruct (Signal_eqb l signal); [| exact IH].
  rewrite (handleShutdown_guarded signal answer p Hg). cbn [fst snd].
  rewrite IH. reflexivity.
Qed.

Lemma run_listeners_once (ls : list Signal) (signal : Signal) (answer : Answer)
  (p : Process) :
  isShuttingDown p = false ->
  let r := run_listeners ls signal answer p in
  if existsb (fun l => Signal_eqb l signal) ls
  then isShuttingDown (fst r) = true /\ sequences_started (snd r) = 1%nat
  else r = (p, []).
Proof.
  intros Hg. cbv zeta.
  induction ls as [| l ls IH]; cbn [run_listeners existsb]; [reflexivity |].
  destruct (Signal_eqb l signal); cbn [orb].
  - destruct (handleShutdown_first signal answer p Hg) as (Hg1 & Hn1 & _).
    rewrite (run_listeners_guarded ls signal answer _ Hg1). cbn [fst snd].
    rewrite app_nil_r. auto.
  - exact IH.
Qed.

Lemma deliver_all_guarded (signals : list (Signal * Answer)) (p : Process) :
  isShuttingDown p = true -> deliver_all signals p = (p, []).
Proof.
  intros Hg. induction signals as [| [sig answer] rest IH]; cbn [deliver_all]; [reflexivity |].
  unfold deliver. rewrite (run_listeners_guarded _ sig answer p Hg). cbn [fst snd].
  rewrite IH. reflexivity.
Qed.

(** The guard does what C9 says of it, however many times the handlers are
    registered: over any sequence of signals the shutdown sequence runs at
    most once; a signal that finds the guard set does nothing; and the
    first signal that has a listener runs it exactly once. *)
Lemma shutdown_sequence_runs_at_most_once :
  forall (signals : list (Signal * Answer)) (p : Process),
    (sequences_started (snd (deliver_all signals p)) <= 1)%nat
    /\ (isShuttingDown p = true -> deliver_all signals p = (p, []))
    /\ (forall sig answer,
          isShuttingDown p = false ->
          (0 < registrations sig p)%nat ->
          sequences_started (snd (deliver sig answer p)) = 1%nat
          /\ deliver_all signals (fst (deliver sig answer p)) = (fst (deliver sig answer p), [])).
Proof.
  intros signals p.
  split; [| split].
  - revert p. induction signals as [| [sig answer] rest IH]; intros p; cbn [deliver_all snd].
    + cbn. lia.
    + destruct (isShuttingDown p) eqn:Hg.
      * unfold deliver. rewrite (run_listeners_guarded _ sig answer p Hg). cbn [fst snd app].
        apply IH.
      * unfold deliver.
        pose proof (run_listeners_once (signalListeners p) sig answer p Hg) as H.
        cbv zeta in H.
        destruct (existsb (fun l => Signal_eqb l sig) (signalListeners p)).
        -- destruct H as (Hg1 & Hn1).
           rewrite (deliver_all_guarded rest _ Hg1). cbn [snd].
           rewrite app_nil_r, Hn1. lia.
        -- rewrite H. cbn [fst snd app]. apply IH.
  - apply deliver_all_guarded.
  - intros sig answer Hg Hreg. unfold deliver.
    pose proof (run_listeners_once (signalListeners p) sig answer p Hg) as H.
    cbv zeta in H.
    assert (Hex : existsb (fun l => Signal_eqb l sig) (signalListeners p) = true).
    { unfold registrations in Hreg.
      induction (signalListeners p) as [| l ls IH]; cbn in *; [lia |].
      destruct l, sig; cbn in *; auto; try lia. }
    rewrite Hex in H. destruct H as (Hg1 & Hn1).
    split; [exact Hn1 |]. apply deliver_all_guarded. exact Hg1.
Qed.

End LifecycleProperties.

(** * The properties on the example runtime *)

Module Examples.

Definition lease123 : LeaseState :=
  {| leaseId := 123;
     account := {| email := "test@example.com";
                   refreshToken := "refresh-token-123";
                   projectId := Some "project-123"%string |};
     expiresAt := Some 1737720000000 |}.

Definition lease456 : LeaseState :=
  {| leaseId := 456;
     account := {| email := "new@example.com";
                   refreshToken := "new-refresh-token";
                   projectId := Some "new-project"%string |};
     expiresAt := Some 1737723600000 |}.

Definition token : Reply string := Responded 200 (Some "access-token"%string).

Example holding_lease : lease Sample.holding = Some lease123.
Proof. reflexivity. Qed.

(** A TTL of 1800 s arms the heartbeat at 900,000 ms. *)
Example holding_heartbeat : heartbeatTimer Sample.holding = Some (Num.of_Z 900000).
Proof. reflexivity. Qed.

(** C5 on an answer with status 500. *)
Lemma acquire_failure_witness :
  let r := acquire Sample.decryptData Sample.parseDate (Responded 500 None)
             1737718200000 Sample.fresh in
  acquire_failure Sample.decryptData (apiKey Sample.fresh) (Responded 500 None)
    (HttpStatus 500)
  /\ outcome r = Thrown (AcquireFailure (HttpStatus 500))
  /\ final r = Sample.fresh
  /\ effects r = [EvFetch (AcquireReq (clientId Sample.fresh))].
Proof.
  cbv zeta.
  assert (H : acquire_failure Sample.decryptData (apiKey Sample.fresh)
                (Responded 500 None) (HttpStatus 500))
    by (apply af_status; reflexivity).
  pose proof (acquire_failure_stores_nothing Sample.decryptData Sample.parseDate
                Sample.fresh (Responded 500 None) 1737718200000 (HttpStatus 500) H) as W.
  cbv zeta in W. destruct W as (W1 & W2 & W3 & _).
  split; [exact H |]. split; [exact W1 |]. split; [exact W2 | exact W3].
Defined.



(** C4 on a renewal that grants 1800 s again. *)
Lemma renew_witness :
  let r := renew Sample.parseDate (Responded 200 (Some Sample.MOCK_RENEW_RESPONSE))
             Sample.holding in
  lease Sample.holding = Some lease123
  /\ lease (final r)
     = Some {| leaseId := 123; account := account lease123;
               expiresAt := Some 1737721800000 |}
  /\ heartbeatTimer (final r) = Some (Num.of_Z 900000)
  /\ outcome r = Returned tt.
Proof.
  cbv zeta.
  pose proof (proj1 (proj2 (renew_spec Sample.parseDate))
                Sample.holding lease123 200 Sample.MOCK_RENEW_RESPONSE
                holding_lease eq_refl) as W.
  cbv zeta in W. destruct W as (W1 & W2 & _ & W4).
  split; [exact holding_lease |]. split; [exact W1 |]. split; [exact W2 |].
  apply W4. discriminate.
Defined.

(** C1 on a switch whose account does not decrypt. *)
Lemma reportIssue_decrypt_failure_witness :
  let r := reportIssue Sample.decryptData Sample.parseDate "quota_exhausted" None
             Sample.undecryptable Sample.holding in
  heartbeatTimer Sample.holding = Some (Num.of_Z 900000)
  /\ outcome r = Thrown (SwitchFailure DecryptError)
  /\ lease (final r) = Some lease123
  /\ idleCheckTimer (final r) = idleCheckTimer Sample.holding
  /\ heartbeatTimer (final r) = None.
Proof.
  cbv zeta.
  pose proof (reportIssue_decrypt_failure_stops_heartbeat
                Sample.decryptData Sample.parseDate
                Sample.holding lease123 (Num.of_Z 900000) "quota_exhausted" None 200
                (Bare (LeaseAcquireResponse.mk 456 "not-a-ciphertext"
                         "2025-01-24T13:00:00.000Z" (Num.of_Z 1800)))
                (LeaseAcquireResponse.mk 456 "not-a-ciphertext"
                   "2025-01-24T13:00:00.000Z" (Num.of_Z 1800))
                1737718500000
                holding_lease holding_heartbeat eq_refl (or_introl eq_refl)) as W.
  cbv zeta in W.
  destruct W as (W1 & W2 & W3 & W4 & W5 & _);
    [discriminate | discriminate | reflexivity |].
  split; [exact W4 |]. split; [exact W1 |]. split; [exact W2 |].
  split; [exact W3 | exact W5].
Defined.




(** C10 with a callback registered, with and without a lease. *)
Lemma release_callback_witness :
  let held := set_onReleaseCallback (Some CbReturns) Sample.holding in
  let idle := set_onReleaseCallback (Some CbReturns) Sample.fresh in
  callbacks (effects (release (Responded 200 (Some true)) held)) = 1%nat
  /\ callbacks (effects (release (Responded 200 (Some true)) idle)) = 0%nat.
Proof.
  cbv zeta.
  pose proof (release_callback_iff_lease_held
                (set_onReleaseCallback (Some CbReturns) Sample.holding)
                (Responded 200 (Some true)) CbReturns eq_refl) as W.
  pose proof (release_callback_iff_lease_held
                (set_onReleaseCallback (Some CbReturns) Sample.fresh)
                (Responded 200 (Some true)) CbReturns eq_refl) as V.
  cbv zeta in W, V.
  destruct W as (_ & W & _). destruct V as (_ & _ & V).
  split; [apply W; reflexivity | apply V; reflexivity].
Defined.

(** C7 at the input on which the code departs from it: two models are tied
    at the least fraction, 10 %, and the one listed second resets earlier.
    The earliest reset time among the entries at the minimum is that of the
    second; the report-issue request carries that of the first. *)
Lemma checkQuota_poll_witness :
  let infos := Object_values Sample.tied_models in
  let r := checkQuota Sample.decryptData Sample.parseDate Sample.toISOString
             (Sample.quotaEnv 1737718260000 token Sample.tied_models) Sample.holding in
  outcome r = Returned (Some {| remaining := Num.of_Z 10; total := 100;
                                percentage := Num.decimal 1 10 |})
  /\ spec_min_fraction infos = Num.decimal 1 10
  /\ spec_earliest_reset infos = Some "2025-01-24T18:00:00.000Z"%string
  /\ fetches (effects r)
     = [TokenReq "refresh-token-123"; FetchModelsReq "access-token" "project-123"]
       ++ quota_report lease123 Sample.tied_models
       ++ [ReportIssueReq 123 (clientId Sample.holding) "quota_exhausted"
             (Some "2025-01-25T00:00:00.000Z"%string)].
Proof.
  cbv zeta.
  pose proof (checkQuota_poll_result Sample.decryptData Sample.parseDate Sample.toISOString
                Sample.holding lease123
                (Sample.quotaEnv 1737718260000 token Sample.tied_models)
                200 200 "access-token" (mkQuotaData (Some Sample.tied_models))
                holding_lease) as W.
  cbv zeta in W.
  destruct W as (_ & _ & W3 & W4 & _);
    [vm_compute; discriminate | reflexivity | reflexivity | reflexivity | reflexivity |].
  split; [exact W3 |]. split; [reflexivity |]. split; [reflexivity |].
  rewrite app_assoc.
  exact (W4 eq_refl "2025-01-25T00:00:00.000Z"%string eq_refl).
Defined.

(** The same poll, evaluated: the fractions, the two reset times, and the
    request that carries the later one. *)
Example checkQuota_reset_time_is_first_not_earliest :
  let infos := Object_values Sample.tied_models in
  let r := checkQuota Sample.decryptData Sample.parseDate Sample.toISOString
             (Sample.quotaEnv 1737718260000 token Sample.tied_models) Sample.holding in
  spec_min_fraction infos = Num.decimal 1 10
  /\ fst (scan_models infos) = Num.decimal 1 10
  /\ spec_earliest_reset infos = Some "2025-01-24T18:00:00.000Z"%string
  /\ snd (scan_models infos) = Some "2025-01-25T00:00:00.000Z"%string
  /\ nth_error (fetches (effects r)) 3
     = Some (ReportIssueReq 123 (clientId Sample.holding) "quota_exhausted"
               (Some "2025-01-25T00:00:00.000Z"%string)).
Proof. vm_compute. repeat split; reflexivity. Qed.

(** C8 on a manager that polled successfully a minute ago. *)
Lemma checkQuota_rate_limit_witness :
  let cq := checkQuota Sample.decryptData Sample.parseDate Sample.toISOString in
  let polled := final (cq (Sample.quotaEnv 1737718260000 token Sample.healthy_models)
                         Sample.holding) in
  let again := cq (Sample.quotaEnv 1737718320000 token Sample.healthy_models) polled in
  outcome (cq (Sample.quotaEnv 1737718260000 token Sample.healthy_models) Sample.fresh)
  = Returned None
  /\ outcome again = Returned None
  /\ effects again = []
  /\ final again = polled.
Proof.
  cbv zeta.
  pose proof (checkQuota_rate_limit Sample.decryptData Sample.parseDate Sample.toISOString
                Sample.fresh (Sample.quotaEnv 1737718260000 token Sample.healthy_models)) as W.
  pose proof (checkQuota_rate_limit Sample.decryptData Sample.parseDate Sample.toISOString
                (final (checkQuota Sample.decryptData Sample.parseDate Sample.toISOString
                          (Sample.quotaEnv 1737718260000 token Sample.healthy_models)
                          Sample.holding))
                (Sample.quotaEnv 1737718320000 token Sample.healthy_models)) as V.
  cbv zeta in W, V.
  destruct W as (_ & W & _). destruct V as (_ & _ & V & _).
  destruct (W eq_refl) as (W1 & _).
  destruct (V lease123 eq_refl) as (V1 & V2 & V3); [reflexivity |].
  split; [exact W1 |]. split; [exact V1 |]. split; [exact V2 | exact V3].
Defined.

(** C8, where the claim as stated fails. A poll at [tA] succeeds; 130 s
    later a poll is attempted and fails at the token refresh; 70 s after
    that, 200 s after the last successful poll and so past the interval of
    120 s, [checkQuota] returns null without polling. *)
Lemma checkQuota_failed_poll_restarts_interval :
  let cq := checkQuota Sample.decryptData Sample.parseDate Sample.toISOString in
  let tA := 1737718260000 in
  let rA := cq (Sample.quotaEnv tA token Sample.healthy_models) Sample.holding in
  let rB := cq (Sample.quotaEnv (tA + 130000) (Responded 401 None) Sample.healthy_models)
              (final rA) in
  let rC := cq (Sample.quotaEnv (tA + 200000) token Sample.healthy_models) (final rB) in
  outcome rA = Returned (Some {| remaining := Num.of_Z 80; total := 100;
                                 percentage := Num.decimal 8 10 |})
  /\ outcome rB = Returned None
  /\ fetches (effects rB) = [TokenReq "refresh-token-123"]
  /\ hasActiveLease (final rB) = true
  /\ quotaCheckIntervalMs (final rB) = 120000
  /\ spec_polls tA (tA + 200000) (quotaCheckIntervalMs (final rB)) = true
  /\ outcome rC = Returned None
  /\ effects rC = [].
Proof. vm_compute. repeat split; reflexivity. Qed.

End Examples.

(** * Further properties of the lease manager *)

(** ** What every operation keeps *)

Definition TimerKind_eqb (a b : TimerKind) : bool :=
  match a, b with
  | Heartbeat, Heartbeat | IdleCheck, IdleCheck => true
  | _, _ => false
  end.

(** Replay the timer calls of a trace for the timer of kind [k], starting
    with a timer armed or not: [None] when the trace calls [setInterval]
    while a timer of that kind is still armed (the old one would tick on,
    unreachable), or [clearInterval] while none is; otherwise whether a
    timer is armed at the end. *)
Fixpoint track (k : TimerKind) (armed : bool) (es : list Event) : option bool :=
  match es with
  | [] => Some armed
  | EvSetInterval k' _ :: rest =>
      if TimerKind_eqb k k'
      then if armed then None else track k true rest
      else track k armed rest
  | EvClearInterval k' :: rest =>
      if TimerKind_eqb k k'
      then if armed then track k false rest else None
      else track k armed rest
  | _ :: rest => track k armed rest
  end.

Definition armed (t : option number) : bool :=
  match t with Some _ => true | None => false end.

(** The fields no operation writes. *)
Definition settings (s : LeaseManager)
  : string * string * string * Z * Z * number * Z :=
  (clientId s, apiEndpoint s, apiKey s, idleTimeoutMs s, quotaCheckIntervalMs s,
   lowQuotaThreshold s, maxRateLimitWaitMs s).

(** Timers are armed only while a lease is held. *)
Definition timers_need_lease (s : LeaseManager) : Prop :=
  lease s = None -> heartbeatTimer s = None /\ idleCheckTimer s = None.

(** A step from [s] to [s'] with trace [es] that keeps the settings, keeps
    timers from outliving the lease, and whose timer calls are in step with
    the timer fields. *)
Definition disciplined (s : LeaseManager) (es : list Event) (s' : LeaseManager) : Prop :=
  settings s' = settings s
  /\ (timers_need_lease s -> timers_need_lease s')
  /\ track Heartbeat (armed (heartbeatTimer s)) es = Some (armed (heartbeatTimer s'))
  /\ track IdleCheck (armed (idleCheckTimer s)) es = Some (armed (idleCheckTimer s')).

Definition well_behaved {A : Type} (m : M A) : Prop :=
  forall s : LeaseManager, disciplined s (effects (m s)) (final (m s)).

Lemma track_app (k : TimerKind) (es1 es2 : list Event) (a b : bool) :
  track k a es1 = Some b -> track k a (es1 ++ es2) = track k b es2.
Proof.
  revert a. induction es1 as [| e es1 IH]; intros a H; cbn [track app] in *.
  - inversion H. reflexivity.
  - destruct e as [q | k' p | k' |]; try (apply IH; exact H);
      destruct (TimerKind_eqb k k'); try (apply IH; exact H);
      destruct a; try discriminate; apply IH; exact H.
Qed.

Lemma disciplined_refl (s : LeaseManager) : disciplined s [] s.
Proof. unfold disciplined. cbn [track]. auto. Qed.

Lemma disciplined_trans (s1 s2 s3 : LeaseManager) (es1 es2 : list Event) :
  disciplined s1 es1 s2 -> disciplined s2 es2 s3 -> disciplined s1 (es1 ++ es2) s3.
Proof.
  intros (Hc1 & Hi1 & Hh1 & Hd1) (Hc2 & Hi2 & Hh2 & Hd2).
  unfold disciplined. split; [| split; [| split]].
  - congruence.
  - auto.
  - rewrite (track_app _ _ _ _ _ Hh1). exact Hh2.
  - rewrite (track_app _ _ _ _ _ Hd1). exact Hd2.
Qed.

(** A trace of requests only. *)
Definition requests_only (es : list Event) : Prop :=
  Forall (fun e => exists q, e = EvFetch q) es.

Lemma track_requests_only (k : TimerKind) (a : bool) (es : list Event) :
  requests_only es -> track k a es = Some a.
Proof.
  induction 1 as [| e es [q ->] _ IH]; cbn [track]; [reflexivity | exact IH].
Qed.

Ltac disciplined_now :=
  unfold disciplined, timers_need_lease, settings; lm_simpl; cbn [track TimerKind_eqb armed];
  repeat split; try reflexivity; try discriminate; try tauto; try (intros; tauto).

Lemma release_well_behaved (reply : Reply bool) : well_behaved (release reply).
Proof.
  intros s. lm_fields s. lm_run.
  destruct hb, ic, cur as [l |]; lm_simpl;
    try (destruct reply as [c | st b]; lm_simpl);
    try (destruct cb as [[|] |]; lm_simpl);
    disciplined_now.
Qed.

Section DisciplineRenew.

Variable parseDate : string -> Date.

Lemma renew_well_behaved (reply : Reply LeaseRenewResponse.t) :
  well_behaved (renew parseDate reply).
Proof.
  intros s. lm_fields s. lm_run.
  destruct cur as [l |]; lm_simpl; [| disciplined_now].
  destruct reply as [c | st [data |]]; lm_simpl;
    try (destruct (ok _); lm_simpl);
    try (destruct hb; lm_simpl;
         destruct (parseDate (LeaseRenewResponse.expires_at data)); lm_simpl);
    disciplined_now.
Qed.

End DisciplineRenew.

Section Discipline.

Variable decryptData : string -> string -> option DecryptedAccountData.t.
Variable parseDate : string -> Date.

Lemma acquire_well_behaved (reply : Reply LeaseAcquireResponse.t) (now : Z) :
  well_behaved (acquire decryptData parseDate reply now).
Proof.
  intros s. lm_fields s. lm_run.
  destruct reply as [c | st [data |]]; lm_simpl;
    try (destruct (ok _); lm_simpl);
    try (destruct (decryptData (LeaseAcquireResponse.account data) key); lm_simpl);
    try (destruct hb; lm_simpl; destruct ic; lm_simpl;
         destruct (parseDate (LeaseAcquireResponse.expires_at data)); lm_simpl);
    disciplined_now.
Qed.

Lemma reportIssue_well_behaved (reason : string) (resetTime : option string)
  (env : SwitchEnv) :
  well_behaved (reportIssue decryptData parseDate reason resetTime env).
Proof.
  intros s. destruct env as [reply now]. lm_fields s. lm_run.
  destruct cur as [l0 |]; lm_simpl; [| disciplined_now].
  destruct reply as [c | st [[[data |] | data] |]]; lm_simpl;
    try (destruct (ok _); lm_simpl);
    try (destruct ((LeaseAcquireResponse.lease_id data =? 0)
                   || String.eqb (LeaseAcquireResponse.account data) EmptyString);
         lm_simpl);
    try (destruct hb; lm_simpl;
         destruct (decryptData (LeaseAcquireResponse.account data) key); lm_simpl;
         try (destruct ic; lm_simpl));
    disciplined_now.
Qed.

End Discipline.

(** Close [requests_only] on a literal trace. *)
Ltac req_only :=
  unfold requests_only; repeat (constructor; [eexists; reflexivity |]); constructor.

Section DisciplineComposite.

Variable decryptData : string -> string -> option DecryptedAccountData.t.
Variable parseDate : string -> Date.
Variable toISOString : Z -> string.

Lemma set_lastQuotaCheck_disciplined (s : LeaseManager) (now : Z) (es : list Event) :
  requests_only es -> disciplined s es (set_lastQuotaCheck now s).
Proof.
  intros Hes. unfold disciplined. rewrite !(track_requests_only _ _ _ Hes).
  lm_fields s. unfold timers_need_lease, settings. lm_simpl.
  split; [reflexivity |]. split; [tauto |]. split; reflexivity.
Qed.

(** [checkQuota] is a stretch of requests, possibly a stamp of
    [lastQuotaCheck], and possibly one switch after them. *)
Lemma checkQuota_decompose (env : QuotaEnv) (s : LeaseManager) :
  let r := checkQuota decryptData parseDate toISOString env s in
  let s1 := set_lastQuotaCheck (q_now env) s in
  exists pre : list Event,
    requests_only pre
    /\ ((effects r = pre /\ (final r = s \/ final r = s1))
        \/ exists hint : string,
             effects r
             = pre ++ effects (reportIssue decryptData parseDate "quota_exhausted"
                                 (Some hint) (q_switch env) s1)
             /\ final r
                = final (reportIssue decryptData parseDate "quota_exhausted"
                           (Some hint) (q_switch env) s1)).
Proof.
  destruct env as [now treply mreply nowf swenv]. cbv zeta. lm_simpl.
  lm_fields s. cq_unfold. lm_simpl.
  destruct cur as [l |]; lm_simpl.
  2:{ exists []. split; [constructor | left; auto]. }
  destruct (now - lqc <? qci); lm_simpl.
  { exists []. split; [constructor | left; auto]. }
  destruct treply as [c | st1 [tok |]]; lm_simpl;
    try (destruct (ok {| status := st1; body := _ |}); lm_simpl);
    try (eexists; split; [| left; split; [reflexivity | right; reflexivity]]; req_only).
  destruct mreply as [c | st2 [qd |]]; lm_simpl;
    try (destruct (ok {| status := st2; body := _ |}); lm_simpl);
    try (eexists; split; [| left; split; [reflexivity | right; reflexivity]]; req_only).
  destruct (map report_entry (Object_entries (nullish (models qd) []))) as [| q qs];
    lm_simpl;
    (destruct (Num.leb _ lqt); lm_simpl;
     [ rewrite hint_or_date_run;
       destruct (reset_hint toISOString _ _) as [hint |]; lm_simpl;
       [ destruct (reportIssue decryptData parseDate _ _ _ _) as [[l' | e'] s2 es2] eqn:Hsw;
         lm_simpl
       | ]
     | ]);
    try (eexists; split; [| left; split; [reflexivity | right; reflexivity]]; req_only);
    try (exists [EvFetch (TokenReq (refreshToken (account l)));
                 EvFetch (FetchModelsReq tok (or_else (projectId (account l)) EmptyString))];
         split; [req_only |];
         right; eexists; rewrite Hsw; lm_simpl; rewrite ?app_nil_r;
         split; reflexivity);
    try (exists [EvFetch (TokenReq (refreshToken (account l)));
                 EvFetch (FetchModelsReq tok (or_else (projectId (account l)) EmptyString));
                 EvFetch (QuotaReportReq (email (account l)) (q :: qs))];
         split; [req_only |];
         right; eexists; rewrite Hsw; lm_simpl; rewrite ?app_nil_r;
         split; reflexivity).
Qed.

Lemma checkQuota_well_behaved (env : QuotaEnv) :
  well_behaved (checkQuota decryptData parseDate toISOString env).
Proof.
  intros s.
  destruct (checkQuota_decompose env s) as (pre & Hpre & [(He & [Hf | Hf]) | (hint & He & Hf)]);
    rewrite He, Hf.
  - unfold disciplined. rewrite !(track_requests_only _ _ _ Hpre).
    split; [reflexivity |]. split; [tauto |]. split; reflexivity.
  - apply set_lastQuotaCheck_disciplined. exact Hpre.
  - eapply disciplined_trans.
    + apply (set_lastQuotaCheck_disciplined s (q_now env) pre Hpre).
    + apply reportIssue_well_behaved.
Qed.

Lemma handleRateLimit_well_behaved (waitMs : Z) (reason quotaResetTime : option string)
  (env : RateLimitEnv) :
  well_behaved (handleRateLimit decryptData parseDate toISOString waitMs reason
                  quotaResetTime env).
Proof.
  intros s.
  assert (Hact : disciplined s [] (set_lastActivity (rl_now env) s)).
  { lm_fields s. unfold disciplined, timers_need_lease, settings. lm_simpl.
    cbn [track]. split; [reflexivity |]. split; [tauto |]. split; reflexivity. }
  destruct (Z_lt_le_dec (maxRateLimitWaitMs s) waitMs) as [Hgt | Hle].
  - rewrite (handleRateLimit_above decryptData parseDate toISOString
               s waitMs reason quotaResetTime env Hgt).
    destruct (reset_hint toISOString quotaResetTime (rl_now_hint env + waitMs)) as [hint |];
      [| exact Hact].
    pose proof (reportIssue_well_behaved decryptData parseDate
                  ("rate_limit:" ++ or_else reason "unknown") (Some hint)
                  (rl_switch env) (set_lastActivity (rl_now env) s)) as Hsw.
    pose proof (disciplined_trans _ _ _ _ _ Hact Hsw) as H. cbn [app] in H.
    cbv zeta. destruct (outcome _); exact H.
  - apply Z.leb_le in Hle.
    unfold handleRateLimit, updateActivity, bind, gets, modify, ret.
    lm_simpl. rewrite Hle. lm_simpl. exact Hact.
Qed.

Lemma heartbeatTick_well_behaved (reply : Reply LeaseRenewResponse.t) (env : QuotaEnv) :
  well_behaved (heartbeatTick decryptData parseDate toISOString reply env).
Proof.
  intros s.
  pose proof (renew_well_behaved parseDate reply s) as Hr.
  unfold heartbeatTick, try_catch, bind, ret.
  destruct (renew parseDate reply s) as [[[] | e] s1 es1]; lm_simpl.
  - pose proof (checkQuota_well_behaved env s1) as Hq.
    destruct (checkQuota decryptData parseDate toISOString env s1) as [[v | e] s2 es2];
      lm_simpl; rewrite ?app_nil_r; eapply disciplined_trans; eauto.
  - rewrite app_nil_r. exact Hr.
Qed.

Lemma idleTick_well_behaved (now : Z) (reply : Reply bool) : well_behaved (idleTick now reply).
Proof.
  intros s.
  pose proof (release_well_behaved reply s) as Hr.
  unfold idleTick, bind, gets, ret. lm_simpl.
  destruct ((idleTimeoutMs s <=? now - lastActivity s) && hasActiveLease s); lm_simpl.
  - destruct (release reply s) as [o s1 es1]. lm_simpl. exact Hr.
  - apply disciplined_refl.
Qed.

End DisciplineComposite.

(** ** Reachable states *)

(** One use of the manager: a call of a public method, or a tick of one of
    its timers, together with what the world answers. *)
Inductive Operation : Type :=
| OpAcquire (reply : Reply LeaseAcquireResponse.t) (now : Z)
| OpRelease (reply : Reply bool)
| OpRenew (reply : Reply LeaseRenewResponse.t)
| OpReportIssue (reason : string) (resetTime : option string) (env : SwitchEnv)
| OpHandleRateLimit (waitMs : Z) (reason quotaResetTime : option string)
    (env : RateLimitEnv)
| OpCheckQuota (env : QuotaEnv)
| OpUpdateActivity (now : Z)
| OpHeartbeatTick (reply : Reply LeaseRenewResponse.t) (env : QuotaEnv)
| OpIdleTick (now : Z) (reply : Reply bool).

Section Reachable.

Variable decryptData : string -> string -> option DecryptedAccountData.t.
Variable parseDate : string -> Date.
Variable toISOString : Z -> string.

Definition perform (op : Operation) (s : LeaseManager) : LeaseManager * list Event :=
  match op with
  | OpAcquire reply now =>
      let r := acquire decryptData parseDate reply now s in (final r, effects r)
  | OpRelease reply =>
      let r := release reply s in (final r, effects r)
  | OpRenew reply =>
      let r := renew parseDate reply s in (final r, effects r)
  | OpReportIssue reason resetTime env =>
      let r := reportIssue decryptData parseDate reason resetTime env s in
      (final r, effects r)
  | OpHandleRateLimit waitMs reason quotaResetTime env =>
      let r := handleRateLimit decryptData parseDate toISOString waitMs reason
                 quotaResetTime env s in
      (final r, effects r)
  | OpCheckQuota env =>
      let r := checkQuota decryptData parseDate toISOString env s in (final r, effects r)
  | OpUpdateActivity now =>
      let r := updateActivity now s in (final r, effects r)
  | OpHeartbeatTick reply env =>
      let r := heartbeatTick decryptData parseDate toISOString reply env s in
      (final r, effects r)
  | OpIdleTick now reply =>
      let r := idleTick now reply s in (final r, effects r)
  end.

(** A history: operations one after the other, each run to completion. *)
Fixpoint perform_all (ops : list Operation) (s : LeaseManager)
  : LeaseManager * list Event :=
  match ops with
  | [] => (s, [])
  | op :: rest =>
      let r1 := perform op s in
      let r2 := perform_all rest (fst r1) in
      (fst r2, snd r1 ++ snd r2)
  end.

Lemma perform_disciplined (op : Operation) (s : LeaseManager) :
  disciplined s (snd (perform op s)) (fst (perform op s)).
Proof.
  destruct op; cbn [perform fst snd].
  - apply acquire_well_behaved.
  - apply release_well_behaved.
  - apply renew_well_behaved.
  - apply reportIssue_well_behaved.
  - apply handleRateLimit_well_behaved.
  - apply checkQuota_well_behaved.
  - lm_fields s. unfold updateActivity, modify. lm_simpl.
    unfold disciplined, timers_need_lease, settings. lm_simpl. cbn [track].
    split; [reflexivity |]. split; [tauto |]. split; reflexivity.
  - apply heartbeatTick_well_behaved.
  - apply idleTick_well_behaved.
Qed.

Lemma perform_all_disciplined (ops : list Operation) (s : LeaseManager) :
  disciplined s (snd (perform_all ops s)) (fst (perform_all ops s)).
Proof.
  revert s. induction ops as [| op rest IH]; intros s; cbn [perform_all fst snd].
  - apply disciplined_refl.
  - eapply disciplined_trans; [apply perform_disciplined | apply IH].
Qed.

(** X11. However the manager is used, the client identity, the endpoint, the key
    and the four configured thresholds stay what the constructor made them. *)
Theorem settings_never_change :
  forall (ops : list Operation) (s : LeaseManager),
    let s' := fst (perform_all ops s) in
    clientId s' = clientId s
    /\ apiEndpoint s' = apiEndpoint s
    /\ apiKey s' = apiKey s
    /\ idleTimeoutMs s' = idleTimeoutMs s
    /\ quotaCheckIntervalMs s' = quotaCheckIntervalMs s
    /\ lowQuotaThreshold s' = lowQuotaThreshold s
    /\ maxRateLimitWaitMs s' = maxRateLimitWaitMs s.
Proof.
  intros ops s. cbv zeta.
  destruct (perform_all_disciplined ops s) as (H & _).
  unfold settings in H. inversion H. repeat split; reflexivity.
Qed.

(** X12. In every state the manager reaches from its constructor, a timer is
    armed only if a lease is held. *)
Theorem timers_only_while_lease_held :
  forall (uuid : string) (now : Z) (config : LeaseManagerConfig.t) (ops : list Operation),
    let s := fst (perform_all ops (new_LeaseManager uuid now config)) in
    lease s = None ->
    heartbeatTimer s = None /\ idleCheckTimer s = None.
Proof.
  intros uuid now config ops. cbv zeta.
  destruct (perform_all_disciplined ops (new_LeaseManager uuid now config)) as (_ & H & _).
  apply H. intros _. split; reflexivity.
Qed.

(** X13. Over every history, from a state with or without timers: [setInterval]
    is never called for a kind of timer while one of that kind is armed,
    [clearInterval] never while none is, and at the end the timer fields
    say which timers are armed. So at most one heartbeat timer and one idle
    timer tick at a time, and none is lost track of. *)
Theorem timers_never_leak :
  forall (ops : list Operation) (s : LeaseManager),
    let r := perform_all ops s in
    track Heartbeat (armed (heartbeatTimer s)) (snd r)
    = Some (armed (heartbeatTimer (fst r)))
    /\ track IdleCheck (armed (idleCheckTimer s)) (snd r)
       = Some (armed (idleCheckTimer (fst r))).
Proof.
  intros ops s. cbv zeta.
  destruct (perform_all_disciplined ops s) as (_ & _ & Hh & Hi). auto.
Qed.

End Reachable.

(** ** Acquire, switch and renew: what success and failure leave behind *)

Section GrantProperties.

Variable decryptData : string -> string -> option DecryptedAccountData.t.
Variable parseDate : string -> Date.

(** X1. When [acquire] returns a lease, that lease is the one stored; it is
    built from the answer's id and expiry and the decrypted account, and
    its expiry is a valid date. The activity stamp is the clock reading, the
    idle check runs every minute, and the only request sent is the acquire
    request: a lease held before is overwritten, not released. *)
Theorem acquire_returns_stored_lease :
  forall (s : LeaseManager) (reply : Reply LeaseAcquireResponse.t) (now : Z) (l : LeaseState),
    outcome (acquire decryptData parseDate reply now s) = Returned l ->
    let r := acquire decryptData parseDate reply now s in
    getLease (final r) = Some l
    /\ getAccount (final r) = Some (account l)
    /\ lastActivity (final r) = now
    /\ idleCheckTimer (final r) = Some (Num.of_Z 60000)
    /\ fetches (effects r) = [AcquireReq (clientId s)]
    /\ expiresAt l <> None
    /\ exists (st : Z) (data : LeaseAcquireResponse.t) (d : DecryptedAccountData.t),
         reply = Responded st (Some data)
         /\ decryptData (LeaseAcquireResponse.account data) (apiKey s) = Some d
         /\ l = {| leaseId := LeaseAcquireResponse.lease_id data;
                   account := {| email := DecryptedAccountData.email d;
                                 refreshToken := DecryptedAccountData.refresh_token d;
                                 projectId := DecryptedAccountData.project_id d |};
                   expiresAt := parseDate (LeaseAcquireResponse.expires_at data) |}.
Proof.
  intros s reply now l. cbv zeta. unfold getLease, getAccount.
  lm_fields s. lm_run.
  destruct reply as [c | st [data |]]; lm_simpl; try discriminate;
    destruct (ok _); lm_simpl; try discriminate.
  destruct (decryptData (LeaseAcquireResponse.account data) key) as [d |] eqn:Hd;
    lm_simpl; [| discriminate].
  destruct hb; lm_simpl; destruct ic; lm_simpl;
    destruct (parseDate (LeaseAcquireResponse.expires_at data)) as [t |] eqn:Ht;
    lm_simpl; intros H; try discriminate; inversion H; subst l; lm_simpl;
    (split; [reflexivity |]); (split; [reflexivity |]); (split; [reflexivity |]);
    (split; [reflexivity |]); (split; [reflexivity |]); (split; [discriminate |]);
    exists st, data, d; rewrite ?Ht;
    (split; [reflexivity | split; [exact Hd | reflexivity]]).
Qed.

Lemma reportIssue_success_inv :
  forall (s : LeaseManager) (reason : string) (resetTime : option string)
         (env : SwitchEnv) (l : LeaseState),
    outcome (reportIssue decryptData parseDate reason resetTime env s) = Returned l ->
    let r := reportIssue decryptData parseDate reason resetTime env s in
    getLease (final r) = Some l
    /\ getAccount (final r) = Some (account l)
    /\ leaseId l <> 0
    /\ lastActivity (final r) = sw_now env
    /\ idleCheckTimer (final r) = Some (Num.of_Z 60000)
    /\ heartbeatTimer (final r) <> None
    /\ exists l0 : LeaseState,
         lease s = Some l0
         /\ fetches (effects r)
            = [ReportIssueReq (leaseId l0) (clientId s) reason
                 match resetTime with
                 | Some t => if String.eqb t EmptyString then None else Some t
                 | None => None
                 end].
Proof.
  intros s reason resetTime [reply now] l. cbv zeta. unfold getLease, getAccount.
  lm_fields s. lm_run.
  destruct cur as [l0 |]; lm_simpl; [| discriminate].
  destruct reply as [c | st [[[data |] | data] |]]; lm_simpl; try discriminate;
    destruct (ok _); lm_simpl; try discriminate;
    (destruct (LeaseAcquireResponse.lease_id data =? 0) eqn:Hid;
     [lm_simpl; discriminate |]);
    (destruct (String.eqb (LeaseAcquireResponse.account data) EmptyString);
     lm_simpl; try discriminate);
    apply Z.eqb_neq in Hid;
    destruct hb; lm_simpl;
    (destruct (decryptData (LeaseAcquireResponse.account data) key);
     lm_simpl; try discriminate);
    destruct ic; lm_simpl; intros H; inversion H; subst l; lm_simpl;
    (split; [reflexivity |]); (split; [reflexivity |]); (split; [exact Hid |]);
    (split; [reflexivity |]); (split; [reflexivity |]); (split; [discriminate |]);
    exists l0; split; reflexivity.
Qed.

(** X3. When [reportIssue] returns a lease, that lease is the one stored, with a
    non-zero id; a lease was held before, and the only request sent names
    that old lease, with the reset hint left out when it is absent or empty.
    The activity stamp is the clock reading and both timers are armed. *)
Theorem reportIssue_returns_stored_lease :
  forall (s : LeaseManager) (reason : string) (resetTime : option string)
         (env : SwitchEnv) (l : LeaseState),
    outcome (reportIssue decryptData parseDate reason resetTime env s) = Returned l ->
    let r := reportIssue decryptData parseDate reason resetTime env s in
    getLease (final r) = Some l
    /\ getAccount (final r) = Some (account l)
    /\ leaseId l <> 0
    /\ lastActivity (final r) = sw_now env
    /\ idleCheckTimer (final r) = Some (Num.of_Z 60000)
    /\ heartbeatTimer (final r) <> None
    /\ exists l0 : LeaseState,
         lease s = Some l0
         /\ fetches (effects r)
            = [ReportIssueReq (leaseId l0) (clientId s) reason
                 match resetTime with
                 | Some t => if String.eqb t EmptyString then None else Some t
                 | None => None
                 end].
Proof. exact reportIssue_success_inv. Qed.

(** X5. [renew] on an answer whose [expires_at] is no date: the expiry has
    already been replaced by the Invalid Date and the heartbeat re-armed
    when the log line that formats the expiry throws, and the call ends in
    [RenewFailure]. *)
Theorem renew_invalid_expiry :
  forall (s : LeaseManager) (l : LeaseState) (st : Z) (data : LeaseRenewResponse.t),
    lease s = Some l ->
    ok (mkResponse st (Some data)) = true ->
    parseDate (LeaseRenewResponse.expires_at data) = None ->
    let r := renew parseDate (Responded st (Some data)) s in
    outcome r = Thrown (RenewFailure InvalidTimeValue)
    /\ lease (final r) = Some {| leaseId := leaseId l; account := account l;
                                 expiresAt := None |}
    /\ heartbeatTimer (final r)
       = Some (heartbeatIntervalMs (LeaseRenewResponse.ttl_seconds data)).
Proof.
  intros s l st data Hl Hok Hdate. cbv zeta.
  lm_fields s. subst cur. lm_run. rewrite Hok. lm_simpl. rewrite Hdate.
  destruct hb; lm_simpl; repeat split; reflexivity.
Qed.

(** X2. [acquire] can raise after it has taken the lease: when the account
    decrypts but [expires_at] is no date, the log line that formats the
    expiry throws once the lease is stored and both timers run; the caller
    sees [AcquireFailure] while the manager holds the lease. *)
Theorem acquire_raises_after_storing_lease :
  forall (s : LeaseManager) (st : Z) (data : LeaseAcquireResponse.t)
         (d : DecryptedAccountData.t) (now : Z),
    ok (mkResponse st (Some data)) = true ->
    decryptData (LeaseAcquireResponse.account data) (apiKey s) = Some d ->
    parseDate (LeaseAcquireResponse.expires_at data) = None ->
    let r := acquire decryptData parseDate (Responded st (Some data)) now s in
    outcome r = Thrown (AcquireFailure InvalidTimeValue)
    /\ hasActiveLease (final r) = true
    /\ getAccount (final r)
       = Some {| email := DecryptedAccountData.email d;
                 refreshToken := DecryptedAccountData.refresh_token d;
                 projectId := DecryptedAccountData.project_id d |}
    /\ heartbeatTimer (final r)
       = Some (heartbeatIntervalMs (LeaseAcquireResponse.ttl_seconds data))
    /\ idleCheckTimer (final r) = Some (Num.of_Z 60000).
Proof.
  intros s st data d now Hok Hdec Hdate. cbv zeta.
  destruct (acquire_invalid_expiry decryptData parseDate s st data d now Hok Hdec Hdate)
    as (H1 & H2 & H3 & H4).
  unfold hasActiveLease, getAccount. rewrite H2.
  repeat split; try assumption; reflexivity.
Qed.

(** X4. A switch the broker refuses (rejected request, non-success status,
    unparsable body, no new lease in the body) raises [SwitchFailure] and
    changes nothing: lease, both timers and the activity stamp are as
    before, and the one request sent named the held lease. *)
Theorem refused_switch_changes_nothing :
  forall (s : LeaseManager) (l : LeaseState) (reason : string) (resetTime : option string)
         (env : SwitchEnv) (c : Cause),
    lease s = Some l ->
    switch_refused (sw_reply env) c ->
    let r := reportIssue decryptData parseDate reason resetTime env s in
    outcome r = Thrown (SwitchFailure c)
    /\ final r = s
    /\ fetches (effects r)
       = [ReportIssueReq (leaseId l) (clientId s) reason (truthy resetTime)].
Proof.
  intros s l reason resetTime env c Hl Href. cbv zeta.
  rewrite (reportIssue_refused_untouched decryptData parseDate s l reason resetTime env c
             Hl Href).
  repeat split; reflexivity.
Qed.

End GrantProperties.

(** ** Without a lease; the two timers' ticks; the rate-limit decision *)

Definition is_acquire (op : Operation) : bool :=
  match op with OpAcquire _ _ => true | _ => false end.

Section UseProperties.

Variable decryptData : string -> string -> option DecryptedAccountData.t.
Variable parseDate : string -> Date.
Variable toISOString : Z -> string.

Lemma perform_without_lease (op : Operation) (s : LeaseManager) :
  is_acquire op = false ->
  lease s = None ->
  fetches (snd (perform decryptData parseDate toISOString op s)) = []
  /\ lease (fst (perform decryptData parseDate toISOString op s)) = None.
Proof.
  intros Hop Hl. lm_fields s. subst cur.
  destruct op as [reply now | reply | reply | reason resetTime env
                 | ms reason quotaResetTime env | env | now | reply env | now reply];
    try discriminate Hop; cbn [perform fst snd].
  - lm_run. destruct hb, ic; lm_simpl; split; reflexivity.
  - lm_run. split; reflexivity.
  - lm_run. split; reflexivity.
  - unfold handleRateLimit, updateActivity, try_catch, bind, gets, modify, ret.
    lm_simpl. destruct (ms <=? mrl); lm_simpl; [split; reflexivity |].
    rewrite hint_or_date_run.
    destruct (reset_hint toISOString quotaResetTime _); lm_simpl; [| split; reflexivity].
    lm_run. split; reflexivity.
  - cq_unfold. lm_simpl. split; reflexivity.
  - lm_run. split; reflexivity.
  - unfold heartbeatTick. lm_run. split; reflexivity.
  - unfold idleTick, hasActiveLease, bind, gets, ret. lm_simpl.
    rewrite andb_false_r. lm_simpl. split; reflexivity.
Qed.

(** X6. While no lease is held, nothing but [acquire] reaches the network: over
    any history without an [acquire], from a state without a lease, no
    request is sent by any call or timer tick, and no lease appears. *)
Theorem no_lease_no_requests :
  forall (ops : list Operation) (s : LeaseManager),
    forallb (fun op => negb (is_acquire op)) ops = true ->
    lease s = None ->
    let r := perform_all decryptData parseDate toISOString ops s in
    fetches (snd r) = [] /\ lease (fst r) = None.
Proof.
  intros ops. induction ops as [| op rest IH]; intros s Hops Hl; cbv zeta;
    cbn [perform_all fst snd].
  - split; [reflexivity | exact Hl].
  - cbn [forallb] in Hops. apply andb_true_iff in Hops. destruct Hops as (Hop & Hrest).
    apply negb_true_iff in Hop.
    destruct (perform_without_lease op s Hop Hl) as (Hq & Hl1).
    destruct (IH _ Hrest Hl1) as (Hq2 & Hl2).
    rewrite fetches_app, Hq, Hq2. split; [reflexivity | exact Hl2].
Qed.


(** X8. The idle check. A tick before the idle timeout has passed since the
    last activity, or with no lease held, does nothing at all. A tick at or
    after the timeout with a lease held releases it: the lease and both
    timers are gone and one release request names the lease. *)
Theorem idleTick_releases_when_idle :
  forall (s : LeaseManager) (now : Z) (reply : Reply bool),
    let r := idleTick now reply s in
    (now - lastActivity s < idleTimeoutMs s \/ lease s = None ->
       r = mkRun (Returned tt) s [])
    /\ (forall l : LeaseState,
          idleTimeoutMs s <= now - lastActivity s ->
          lease s = Some l ->
          lease (final r) = None
          /\ heartbeatTimer (final r) = None
          /\ idleCheckTimer (final r) = None
          /\ fetches (effects r) = [ReleaseReq (leaseId l) (clientId s)]).
Proof.
  intros s now reply. cbv zeta. split.
  - intros H. unfold idleTick, hasActiveLease, bind, gets, ret. lm_simpl.
    destruct H as [H | H].
    + apply Z.leb_gt in H. rewrite H. reflexivity.
    + rewrite H, andb_false_r. reflexivity.
  - intros l Hge Hl. apply Z.leb_le in Hge.
    destruct (release_with_lease s l reply Hl) as (Hf & Hq & _).
    unfold idleTick, hasActiveLease, bind, gets, ret. lm_simpl.
    rewrite Hge, Hl. lm_simpl.
    destruct (release reply s) as [o s1 es1]. lm_simpl.
    rewrite Hq. subst s1. lm_fields s. repeat split; reflexivity.
Qed.

(** X9. Activity postpones the idle release: after [updateActivity] at [t], a
    tick less than the idle timeout later does nothing, whatever the
    earlier activity stamp was. *)
Theorem updateActivity_postpones_release :
  forall (s : LeaseManager) (t now : Z) (reply : Reply bool),
    now - t < idleTimeoutMs s ->
    let s1 := final (updateActivity t s) in
    idleTick now reply s1 = mkRun (Returned tt) s1 []
    /\ lease s1 = lease s
    /\ heartbeatTimer s1 = heartbeatTimer s
    /\ idleCheckTimer s1 = idleCheckTimer s.
Proof.
  intros s t now reply Hlt. cbv zeta. apply Z.leb_gt in Hlt.
  lm_fields s. unfold updateActivity, idleTick, hasActiveLease, bind, gets, modify, ret.
  lm_simpl. rewrite Hlt. repeat split; reflexivity.
Qed.

Lemma checkQuota_never_throws (env : QuotaEnv) (s : LeaseManager) :
  exists v, outcome (checkQuota decryptData parseDate toISOString env s) = Returned v.
Proof.
  destruct (lease s) as [l |] eqn:Hl.
  - destruct (Z_lt_le_dec (q_now env - lastQuotaCheck s) (quotaCheckIntervalMs s))
      as [Hlt | Hge].
    + rewrite (checkQuota_rate_limited decryptData parseDate toISOString s l env Hl Hlt).
      eexists; reflexivity.
    + apply (checkQuota_poll_attempt decryptData parseDate toISOString s l env Hl Hge).
  - rewrite (checkQuota_no_lease decryptData parseDate toISOString s env Hl).
    eexists; reflexivity.
Qed.

(** X10. The heartbeat tick never throws. If the renewal throws, the tick ends
    there, as the renewal left things, without a quota poll; if the renewal
    returns, the quota poll runs next, on the renewed state. *)
Theorem heartbeatTick_chains_renew_and_poll :
  forall (s : LeaseManager) (reply : Reply LeaseRenewResponse.t) (env : QuotaEnv),
    let r := heartbeatTick decryptData parseDate toISOString reply env s in
    let rn := renew parseDate reply s in
    let cq := checkQuota decryptData parseDate toISOString env (final rn) in
    outcome r = Returned tt
    /\ (forall e : Exn,
          outcome rn = Thrown e -> final r = final rn /\ effects r = effects rn)
    /\ (outcome rn = Returned tt ->
        final r = final cq /\ effects r = effects rn ++ effects cq).
Proof.
  intros s reply env. cbv zeta.
  pose proof (checkQuota_never_throws env (final (renew parseDate reply s))) as (v & Hv).
  unfold heartbeatTick, try_catch, bind, ret.
  destruct (renew parseDate reply s) as [[[] | e] s1 es1]; lm_simpl.
  - destruct (checkQuota decryptData parseDate toISOString env s1) as [[w | e] s2 es2];
      lm_simpl; try discriminate.
    rewrite app_nil_r. repeat split; try reflexivity; discriminate.
  - rewrite app_nil_r. repeat split; try reflexivity; discriminate.
Qed.

End UseProperties.

(** ** The quota snapshot and the quota report *)

(** X15. [reportQuotaToServer] never throws and changes no field. With a lease
    held and at least one model it sends one report, addressed by the
    account's email, with one entry per model in the order in which
    [Object.entries] lists the models: the model's name, its reset time,
    and [Math.round((remainingFraction || 0) * 100)]. With no lease or no
    model it sends nothing. *)
Theorem reportQuotaToServer_one_entry_per_model :
  forall (s : LeaseManager) (ms : Obj ModelInfo),
    let r := reportQuotaToServer ms s in
    outcome r = Returned tt
    /\ final r = s
    /\ (lease s = None \/ ms = [] -> effects r = [])
    /\ (forall l : LeaseState,
          lease s = Some l ->
          ms <> [] ->
          exists quotas : list QuotaReportEntry,
            effects r = [EvFetch (QuotaReportReq (email (account l)) quotas)]
            /\ map model_name quotas = map fst (Object_entries ms)
            /\ map reset_time quotas
               = map (fun m => resetTime_of (snd m)) (Object_entries ms)
            /\ map report_percentage quotas
               = map (fun m => Math_round (Num.mul (fraction_or_zero (snd m))
                                             (Num.of_Z 100)))
                   (Object_entries ms)).
Proof.
  intros s ms. cbv zeta. unfold Object_entries.
  assert (Hmaps :
    map model_name (map report_entry ms) = map fst ms
    /\ map reset_time (map report_entry ms) = map (fun m => resetTime_of (snd m)) ms
    /\ map report_percentage (map report_entry ms)
       = map (fun m => Math_round (Num.mul (fraction_or_zero (snd m)) (Num.of_Z 100))) ms).
  { rewrite !map_map. repeat split; apply map_ext; intros m; reflexivity. }
  lm_fields s. unfold reportQuotaToServer, Object_entries, bind, gets, emit, ret. lm_simpl.
  destruct cur as [l |]; lm_simpl.
  - destruct ms as [| m ms]; cbn [map]; lm_simpl.
    + repeat split; try reflexivity. intros l' _ H. exfalso; apply H; reflexivity.
    + repeat split; try reflexivity.
      * intros [H | H]; discriminate.
      * intros l' Hl' _. inversion Hl'; subst l'.
        exists (report_entry m :: map report_entry ms). split; [reflexivity |].
        exact Hmaps.
  - repeat split; try reflexivity. intros l' Hl'. discriminate.
Qed.

(** X16. A model whose remaining fraction is missing counts as full (1.0) in
    the minimum that decides a switch, but is reported to the broker as
    empty (0 %). *)
Theorem missing_fraction_full_in_minimum_empty_in_report :
  forall ms : Obj ModelInfo,
    (forall m, In m ms -> forall qi, quotaInfo (snd m) = Some qi ->
                                     QuotaInfo.remainingFraction qi = None) ->
    fst (scan_models (Object_values ms)) = Num.of_Z 1
    /\ Forall (fun q => report_percentage q = Num.of_Z 0)
         (map report_entry (Object_entries ms)).
Proof.
  intros ms Hmiss. unfold Object_values, Object_entries.
  split.
  - assert (Hfull : forall m, In m ms -> fraction_of (snd m) = Num.of_Z 1).
    { intros m Hm. unfold fraction_of. specialize (Hmiss m Hm).
      destruct (quotaInfo (snd m)) as [qi |]; [| reflexivity].
      rewrite (Hmiss qi eq_refl). reflexivity. }
    destruct (scan_models_result (map snd ms)) as [_ | pre post i Heq Hlt _ _];
      [reflexivity |].
    exfalso. cbn [fst] in Hlt.
    assert (Hi : In i (map snd ms)) by (rewrite Heq; apply in_or_app; right; left; reflexivity).
    apply in_map_iff in Hi. destruct Hi as (m & <- & Hm).
    rewrite (Hfull m Hm) in Hlt. discriminate Hlt.
  - apply Forall_forall. intros q Hq. apply in_map_iff in Hq. destruct Hq as (m & <- & Hm).
    unfold report_entry, fraction_or_zero. cbn [report_percentage].
    specialize (Hmiss m Hm).
    destruct (quotaInfo (snd m)) as [qi |]; [| reflexivity].
    rewrite (Hmiss qi eq_refl). reflexivity.
Qed.

Section SnapshotProperties.

Variable decryptData : string -> string -> option DecryptedAccountData.t.
Variable parseDate : string -> Date.
Variable toISOString : Z -> string.

(** X17. Whenever [checkQuota] returns a snapshot, a lease was held, the
    polling interval had elapsed, both requests of the poll were answered
    with success, and the snapshot is that of the models answered: [total]
    is 100, [percentage] is the scanned minimum, [remaining] is
    [Math.round(percentage * 100)]; [percentage] is at most 1.0, so it is
    never NaN, it is 1.0 or the fraction of one of the models, and no
    model's fraction is below it. *)
Theorem checkQuota_snapshot_bounds :
  forall (s : LeaseManager) (env : QuotaEnv) (q : QuotaSnapshot),
    outcome (checkQuota decryptData parseDate toISOString env s) = Returned (Some q) ->
    exists (l : LeaseState) (st1 : Z) (tok : string) (st : Z) (qd : QuotaData),
      lease s = Some l
      /\ quotaCheckIntervalMs s <= q_now env - lastQuotaCheck s
      /\ q_token env = Responded st1 (Some tok)
      /\ ok (mkResponse st1 (Some tok)) = true
      /\ q_models env = Responded st (Some qd)
      /\ ok (mkResponse st (Some qd)) = true
      /\ percentage q = fst (scan_models (Object_values (nullish (models qd) [])))
      /\ total q = 100
      /\ remaining q = Math_round (Num.mul (percentage q) (Num.of_Z 100))
      /\ Num.leb (percentage q) (Num.of_Z 1) = true
      /\ (percentage q = Num.of_Z 1
          \/ exists m, In m (nullish (models qd) []) /\ fraction_of (snd m) = percentage q)
      /\ (forall m, In m (nullish (models qd) []) ->
                    Num.ltb (fraction_of (snd m)) (percentage q) = false).
Proof.
  intros s env q Hq.
  destruct (lease s) as [l |] eqn:Hl.
  2:{ rewrite (checkQuota_no_lease decryptData parseDate toISOString s env Hl) in Hq.
      discriminate. }
  destruct (Z_lt_le_dec (q_now env - lastQuotaCheck s) (quotaCheckIntervalMs s))
    as [Hlt | Hge].
  { rewrite (checkQuota_rate_limited decryptData parseDate toISOString s l env Hl Hlt) in Hq.
    discriminate. }
  destruct (checkQuota_poll_attempt decryptData parseDate toISOString s l env Hl Hge)
    as (_ & _ & _ & Hfail).
  assert (Hnf : ~ poll_failure env).
  { intros Hf. rewrite (Hfail Hf) in Hq. discriminate. }
  destruct (q_token env) as [c | st1 [tok |]] eqn:Htok;
    try (exfalso; apply Hnf; eauto using poll_failure; fail).
  destruct (ok (mkResponse st1 (Some tok))) eqn:Hok1;
    [| exfalso; apply Hnf; eauto using poll_failure].
  destruct (q_models env) as [c | st2 [qd |]] eqn:Hmod;
    try (exfalso; apply Hnf; eauto using poll_failure; fail).
  destruct (ok (mkResponse st2 (Some qd))) eqn:Hok2;
    [| exfalso; apply Hnf; eauto using poll_failure].
  rewrite (checkQuota_poll_run decryptData parseDate toISOString
             s l env st1 st2 tok qd Hl Hge Htok Hok1 Hmod Hok2) in Hq.
  cbv zeta in Hq.
  set (infos := Object_values (nullish (models qd) [])) in *.
  assert (Hsnap : q = {| remaining := Math_round (Num.mul (fst (scan_models infos))
                                                    (Num.of_Z 100));
                         total := 100;
                         percentage := fst (scan_models infos) |}).
  { destruct (Num.leb (fst (scan_models infos)) (lowQuotaThreshold s));
      [destruct (reset_hint toISOString _ _) |];
      cbn [outcome] in Hq; inversion Hq; reflexivity. }
  destruct (scan_models_least infos) as (Hle & Hall & Hin & _).
  exists l, st1, tok, st2, qd. subst q. cbn [percentage total remaining].
  split; [reflexivity |]. split; [exact Hge |]. split; [reflexivity |].
  split; [exact Hok1 |]. split; [reflexivity |]. split; [exact Hok2 |].
  split; [reflexivity |]. split; [reflexivity |]. split; [reflexivity |].
  split; [exact Hle |].
  split.
  - destruct Hin as [H1 | (i & Hi & Heq)]; [left; exact H1 | right].
    unfold infos, Object_values in Hi. apply in_map_iff in Hi.
    destruct Hi as (m & <- & Hm). exists m. split; [exact Hm | exact Heq].
  - intros m Hm. apply Hall. unfold infos, Object_values.
    apply in_map. exact Hm.
Qed.

End SnapshotProperties.

(** ** Shutdown: signals and the natural exit together *)

Module ShutdownProperties.
Import Lifecycle.

(** What can start a shutdown: a termination signal, or the event loop
    running empty (['beforeExit']). *)
Inductive ExitEvent : Type :=
| OnSignal (signal : Signal) (answer : Answer)
| OnBeforeExit (reply : Reply bool).

(** ['beforeExit'] is emitted: each of the [n] registered listeners runs. *)
Fixpoint run_beforeExit (n : nat) (reply : Reply bool) (p : Process)
  : Process * list ProcEvent :=
  match n with
  | O => (p, [])
  | S k =>
      let r1 := beforeExitHook reply p in
      let r2 := run_beforeExit k reply (fst r1) in
      (fst r2, snd r1 ++ snd r2)
  end.

Definition exit_step (ev : ExitEvent) (p : Process) : Process * list ProcEvent :=
  match ev with
  | OnSignal signal answer => deliver signal answer p
  | OnBeforeExit reply => run_beforeExit (beforeExitListeners p) reply p
  end.

Fixpoint run_exit (evs : list ExitEvent) (p : Process) : Process * list ProcEvent :=
  match evs with
  | [] => (p, [])
  | ev :: rest =>
      let r1 := exit_step ev p in
      let r2 := run_exit rest (fst r1) in
      (fst r2, snd r1 ++ snd r2)
  end.

Definition is_release_request (e : ProcEvent) : bool :=
  match e with
  | EvManager (EvFetch (ReleaseReq _ _)) => true
  | _ => false
  end.

(** How many release requests went to the broker in a run. *)
Definition release_requests (es : list ProcEvent) : nat :=
  length (filter is_release_request es).

Lemma release_requests_app (es1 es2 : list ProcEvent) :
  release_requests (es1 ++ es2) = (release_requests es1 + release_requests es2)%nat.
Proof. unfold release_requests. rewrite filter_app, length_app. reflexivity. Qed.

Lemma release_requests_manager (es : list Event) :
  (release_requests (map EvManager es) <= length (fetches es))%nat.
Proof.
  unfold release_requests, fetches.
  induction es as [| e es IH]; cbn [map filter flat_map length app]; [lia |].
  destruct e as [[] | | |]; cbn [is_release_request length app]; lia.
Qed.

Lemma release_sends_at_most_one (reply : Reply bool) (m : LeaseManager) :
  (length (fetches (effects (release reply m))) <= 1)%nat
  /\ hasActiveLease (final (release reply m)) = false
  /\ heartbeatTimer (final (release reply m)) = None
  /\ idleCheckTimer (final (release reply m)) = None.
Proof.
  unfold hasActiveLease. destruct (lease m) as [l |] eqn:Hl.
  - destruct (release_with_lease m l reply Hl) as (Hf & Hq & _).
    rewrite Hq, Hf. cbn. auto.
  - destruct (release_no_lease m reply Hl) as (_ & Hf & Hq & _).
    rewrite Hq, Hf. lm_fields m. cbn. subst cur. auto.
Qed.

Lemma release_ref_at_most_one (reply : Reply bool) (ref : option LeaseManager) :
  (release_requests (snd (release_ref reply ref)) <= 1)%nat.
Proof.
  destruct ref as [m |]; cbn [release_ref snd].
  - pose proof (release_requests_manager (effects (release reply m))).
    pose proof (release_sends_at_most_one reply m). lia.
  - cbn. lia.
Qed.

(** [release] with its request unanswered: the local part has run, and the
    request is out if a lease was held. *)
Lemma release_pending_run (m : LeaseManager) :
  release_pending m
  = match lease m with
    | Some l =>
        mkRun (Returned true) (final (release_local m))
          (effects (release_local m) ++ [EvFetch (ReleaseReq (leaseId l) (clientId m))])
    | None => mkRun (Returned false) (final (release_local m)) (effects (release_local m))
    end.
Proof.
  lm_fields m. lm_run. destruct hb, ic, cur; lm_simpl; reflexivity.
Qed.

Lemma release_local_final (m : LeaseManager) :
  hasActiveLease (final (release_local m)) = false
  /\ heartbeatTimer (final (release_local m)) = None
  /\ idleCheckTimer (final (release_local m)) = None
  /\ fetches (effects (release_local m)) = [].
Proof.
  unfold hasActiveLease. lm_fields m. lm_run.
  destruct hb, ic, cur; lm_simpl; repeat split; reflexivity.
Qed.

Lemma release_watched_at_most_one (answer : Answer) (ref : option LeaseManager) :
  (release_requests (snd (release_watched answer ref)) <= 1)%nat.
Proof.
  destruct answer as [reply |]; cbn [release_watched fst snd].
  - rewrite release_requests_app.
    pose proof (release_ref_at_most_one reply ref). cbn. lia.
  - destruct ref as [m |]; cbn [snd]; [| cbn; lia].
    rewrite release_pending_run.
    destruct (release_local_final m) as (_ & _ & _ & Hq).
    pose proof (release_requests_manager (effects (release_local m))) as Hm.
    rewrite Hq in Hm. cbn [length] in Hm.
    destruct (lease m) as [l |]; cbn [outcome effects];
      rewrite ?map_app, !release_requests_app; cbn; lia.
Qed.

(** A step is quiet when it changes nothing and does nothing. *)
Definition step_outcome (p : Process) (r : Process * list ProcEvent) : Prop :=
  r = (p, [])
  \/ (isShuttingDown p = false
      /\ isShuttingDown (fst r) = true
      /\ (release_requests (snd r) <= 1)%nat
      /\ (sequences_started (snd r) <= 1)%nat).

Lemma handleShutdown_outcome (signal : Signal) (answer : Answer) (p : Process) :
  step_outcome p (handleShutdown signal answer p).
Proof.
  unfold step_outcome, handleShutdown.
  destruct (isShuttingDown p) eqn:Hg; [left; reflexivity | right].
  cbn [fst snd isShuttingDown].
  split; [reflexivity |]. split; [reflexivity |].
  pose proof (release_watched_at_most_one answer (leaseManagerRef p)) as H.
  split.
  - rewrite release_requests_app. cbn [release_requests filter is_release_request length].
    fold (release_requests (snd (release_watched answer (leaseManagerRef p)))). lia.
  - rewrite LifecycleProperties.sequences_started_app,
      LifecycleProperties.sequences_started_watched. cbn. lia.
Qed.

Lemma beforeExitHook_outcome (reply : Reply bool) (p : Process) :
  step_outcome p (beforeExitHook reply p).
Proof.
  unfold step_outcome, beforeExitHook.
  destruct (isShuttingDown p) eqn:Hg; [left; reflexivity |].
  destruct (leaseManagerRef p) as [m |] eqn:Hm; [right | left; reflexivity].
  cbn [fst snd isShuttingDown].
  split; [reflexivity |]. split; [reflexivity |].
  split.
  - apply (release_ref_at_most_one reply (Some m)).
  - cbn [release_ref snd]. rewrite LifecycleProperties.sequences_started_manager. lia.
Qed.

Lemma step_outcome_then (p : Process) (r1 : Process * list ProcEvent)
  (r2 : Process * list ProcEvent) :
  step_outcome p r1 ->
  step_outcome (fst r1) r2 ->
  step_outcome p (fst r2, snd r1 ++ snd r2).
Proof.
  intros [-> | (Hg & Hg1 & Hq1 & Hs1)] H2.
  - cbn [fst snd app] in *. destruct r2. exact H2.
  - destruct H2 as [-> | (Hg2 & _)]; [| congruence].
    right. cbn [fst snd]. rewrite app_nil_r. auto.
Qed.

Lemma run_listeners_outcome (ls : list Signal) (signal : Signal) (answer : Answer)
  (p : Process) :
  step_outcome p (run_listeners ls signal answer p).
Proof.
  revert p. induction ls as [| l ls IH]; intros p; cbn [run_listeners].
  - left; reflexivity.
  - destruct (Signal_eqb l signal); [| apply IH].
    apply step_outcome_then; [apply handleShutdown_outcome | apply IH].
Qed.

Lemma run_beforeExit_outcome (n : nat) (reply : Reply bool) (p : Process) :
  step_outcome p (run_beforeExit n reply p).
Proof.
  revert p. induction n as [| n IH]; intros p; cbn [run_beforeExit].
  - left; reflexivity.
  - apply step_outcome_then; [apply beforeExitHook_outcome | apply IH].
Qed.

Lemma exit_step_outcome (ev : ExitEvent) (p : Process) : step_outcome p (exit_step ev p).
Proof.
  destruct ev; cbn [exit_step].
  - apply run_listeners_outcome.
  - apply run_beforeExit_outcome.
Qed.

Lemma run_exit_outcome (evs : list ExitEvent) (p : Process) :
  step_outcome p (run_exit evs p).
Proof.
  revert p. induction evs as [| ev rest IH]; intros p; cbn [run_exit].
  - left; reflexivity.
  - apply step_outcome_then; [apply exit_step_outcome | apply IH].
Qed.

(** X19. Over any succession of termination signals and natural exits, however
    many listeners are registered, the coordinator sends at most one release
    request and starts the watchdog at most once; and once the guard is set,
    nothing more happens. *)
Theorem shutdown_releases_at_most_once :
  forall (evs : list ExitEvent) (p : Process),
    (release_requests (snd (run_exit evs p)) <= 1)%nat
    /\ (sequences_started (snd (run_exit evs p)) <= 1)%nat
    /\ (isShuttingDown p = true -> run_exit evs p = (p, [])).
Proof.
  intros evs p.
  destruct (run_exit_outcome evs p) as [H | (Hg & _ & Hq & Hs)].
  - rewrite H. cbn. repeat split; try lia.
  - repeat split; try assumption. congruence.
Qed.

(** X18. The shutdown sequence of a first signal: the guard is set and the
    10 s watchdog is started before the release. When the release settles
    in time, whatever it does (a rejection is caught), the watchdog is
    cleared after it. When its request is still unanswered as the watchdog
    fires, the watchdog ends the process with exit code 1 and is never
    cleared. Either way the registered manager is left without lease or
    timers. With no manager registered, or no lease held, there is nothing
    to wait for and the watchdog is started and cleared. *)
Theorem handleShutdown_sequence :
  forall (signal : Signal) (answer : Answer) (p : Process),
    isShuttingDown p = false ->
    let r := handleShutdown signal answer p in
    isShuttingDown (fst r) = true
    /\ signalListeners (fst r) = signalListeners p
    /\ (exists rest : list ProcEvent, snd r = EvWatchdogStart 10000 :: rest)
    /\ (leaseManagerRef p = None ->
        snd r = [EvWatchdogStart 10000; EvWatchdogClear]
        /\ leaseManagerRef (fst r) = None)
    /\ (forall (m : LeaseManager) (reply : Reply bool),
          leaseManagerRef p = Some m ->
          answer = InTime reply ->
          snd r = EvWatchdogStart 10000
                  :: map EvManager (effects (release reply m)) ++ [EvWatchdogClear]
          /\ leaseManagerRef (fst r) = Some (final (release reply m)))
    /\ (forall (m : LeaseManager) (l : LeaseState),
          leaseManagerRef p = Some m ->
          answer = TooLate ->
          lease m = Some l ->
          snd r = EvWatchdogStart 10000
                  :: map EvManager (effects (release_local m))
                  ++ [EvManager (EvFetch (ReleaseReq (leaseId l) (clientId m))); EvExit 1]
          /\ ~ In EvWatchdogClear (snd r)
          /\ leaseManagerRef (fst r) = Some (final (release_local m)))
    /\ (forall m : LeaseManager,
          leaseManagerRef p = Some m ->
          answer = TooLate ->
          lease m = None ->
          snd r = EvWatchdogStart 10000
                  :: map EvManager (effects (release_local m)) ++ [EvWatchdogClear])
    /\ (forall m : LeaseManager,
          leaseManagerRef p = Some m ->
          exists m' : LeaseManager,
            leaseManagerRef (fst r) = Some m'
            /\ hasActiveLease m' = false
            /\ heartbeatTimer m' = None
            /\ idleCheckTimer m' = None).
Proof.
  intros signal answer p Hg. cbv zeta.
  unfold handleShutdown. rewrite Hg.
  cbn [fst snd isShuttingDown signalListeners leaseManagerRef app].
  split; [reflexivity |]. split; [reflexivity |].
  split; [eexists; reflexivity |].
  split; [| split; [| split; [| split]]].
  - intros Hm. rewrite Hm.
    destruct answer; cbn [release_watched release_ref fst snd app]; split; reflexivity.
  - intros m reply Hm ->. rewrite Hm. cbn [release_watched release_ref fst snd].
    split; reflexivity.
  - intros m l Hm -> Hl. rewrite Hm. cbn [release_watched fst snd].
    rewrite release_pending_run, Hl. cbn [outcome final effects].
    rewrite map_app, <- app_assoc. cbn [map app].
    split; [reflexivity |]. split; [| reflexivity].
    intros [H | H]; [discriminate |].
    apply in_app_or in H. destruct H as [H | [H | [H | []]]]; try discriminate.
    apply in_map_iff in H. destruct H as (e & He & _). discriminate.
  - intros m Hm -> Hl. rewrite Hm. cbn [release_watched fst snd].
    rewrite release_pending_run, Hl. reflexivity.
  - intros m Hm. rewrite Hm.
    destruct answer as [reply |]; cbn [release_watched release_ref fst snd].
    + exists (final (release reply m)). split; [reflexivity |].
      apply release_sends_at_most_one.
    + exists (final (release_pending m)). split; [reflexivity |].
      rewrite release_pending_run.
      destruct (release_local_final m) as (H1 & H2 & H3 & _).
      destruct (lease m); cbn [final]; auto.
Qed.

(** X20. [initLifecycle] stores the manager it is given before it looks at the
    guard. Called once a shutdown has begun, it registers nothing, and the
    manager it stored is never released by the coordinator: no later signal
    or natural exit does anything. *)
Theorem initLifecycle_during_shutdown :
  forall (m : LeaseManager) (p : Process) (evs : list ExitEvent),
    isShuttingDown p = true ->
    let p' := initLifecycle m p in
    leaseManagerRef p' = Some m
    /\ signalListeners p' = signalListeners p
    /\ beforeExitListeners p' = beforeExitListeners p
    /\ run_exit evs p' = (p', []).
Proof.
  intros m p evs Hg. cbv zeta.
  assert (Hp : initLifecycle m p
               = mkProcess true (Some m) (signalListeners p) (beforeExitListeners p)).
  { unfold initLifecycle. cbn [isShuttingDown]. rewrite Hg. reflexivity. }
  rewrite Hp. cbn [leaseManagerRef signalListeners beforeExitListeners].
  repeat split.
  destruct (run_exit_outcome evs
              (mkProcess true (Some m) (signalListeners p) (beforeExitListeners p)))
    as [H | (Hg' & _)]; [exact H | discriminate].
Qed.

End ShutdownProperties.


(** ** Resetting the coordinator *)

Module ResetProperties.
Import Lifecycle.

(** [process.removeListener(signal, handleShutdown)]: at most one instance of
    the listener is removed, the most recently added one. *)
Fixpoint removeListener (signal : Signal) (ls : list Signal) : list Signal :=
  match ls with
  | [] => []
  | l :: rest =>
      if Signal_eqb l signal && negb (existsb (Signal_eqb signal) rest)
      then rest
      else l :: removeListener signal rest
  end.

(** The listener added for ['beforeExit'] is an anonymous function and is
    not removed. *)
Definition _resetForTesting (p : Process) : Process :=
  {| isShuttingDown := false;
     leaseManagerRef := None;
     signalListeners :=
       removeListener SIGHUP
         (removeListener SIGINT (removeListener SIGTERM (signalListeners p)));
     beforeExitListeners := beforeExitListeners p |}.

(** How many times [handleShutdown] is registered for [signal]. *)
Definition handlers (signal : Signal) (ls : list Signal) : nat :=
  length (filter (Signal_eqb signal) ls).

Lemma removeListener_last (signal : Signal) (ls tl : list Signal) :
  existsb (Signal_eqb signal) tl = false ->
  removeListener signal (ls ++ signal :: tl) = ls ++ tl.
Proof.
  intros Htl. induction ls as [| l ls IH]; cbn [app removeListener].
  - rewrite Htl. destruct signal; reflexivity.
  - rewrite IH.
    replace (existsb (Signal_eqb signal) (ls ++ signal :: tl)) with true.
    + rewrite andb_false_r. reflexivity.
    + symmetry. rewrite existsb_app. cbn [existsb].
      destruct signal; cbn [Signal_eqb orb]; rewrite orb_true_r; reflexivity.
Qed.

Lemma handlers_present (signal : Signal) (ls : list Signal) :
  existsb (Signal_eqb signal) ls = true -> (1 <= handlers signal ls)%nat.
Proof.
  unfold handlers. induction ls as [| l ls IH]; cbn [existsb filter]; [discriminate |].
  destruct (Signal_eqb signal l); cbn [orb length]; [lia | exact IH].
Qed.

Lemma handlers_removeListener (signal sg : Signal) (ls : list Signal) :
  handlers sg (removeListener signal ls)
  = if Signal_eqb sg signal then pred (handlers sg ls) else handlers sg ls.
Proof.
  induction ls as [| l ls IH]; cbn [removeListener].
  - destruct (Signal_eqb sg signal); reflexivity.
  - destruct (existsb (Signal_eqb signal) ls) eqn:Hex.
    + rewrite andb_false_r.
      pose proof (handlers_present signal ls Hex) as Hone. unfold handlers in *.
      destruct sg, signal, l; cbn [Signal_eqb filter length] in *; rewrite ?IH; lia.
    + rewrite andb_true_r. unfold handlers in *.
      destruct sg, signal, l; cbn [Signal_eqb filter length] in *; rewrite ?IH; lia.
Qed.

(** X21. [_resetForTesting] clears the guard and the manager and removes one
    [handleShutdown] registration per signal (none where there was none),
    never a ['beforeExit'] listener. Right after an [initLifecycle] that
    registered, it restores the signal listeners that were there before,
    with one ['beforeExit'] listener more. *)
Theorem resetForTesting_removes_one_registration :
  forall (m : LeaseManager) (p : Process),
    isShuttingDown (_resetForTesting p) = false
    /\ leaseManagerRef (_resetForTesting p) = None
    /\ beforeExitListeners (_resetForTesting p) = beforeExitListeners p
    /\ (forall sg : Signal,
          handlers sg (signalListeners (_resetForTesting p))
          = pred (handlers sg (signalListeners p)))
    /\ (isShuttingDown p = false ->
        _resetForTesting (initLifecycle m p)
        = mkProcess false None (signalListeners p) (S (beforeExitListeners p))).
Proof.
  intros m p.
  split; [reflexivity |]. split; [reflexivity |]. split; [reflexivity |]. split.
  - intros sg. cbn [_resetForTesting signalListeners].
    rewrite !handlers_removeListener.
    destruct sg; cbn [Signal_eqb]; reflexivity.
  - intros Hg. unfold initLifecycle. cbn [isShuttingDown]. rewrite Hg.
    unfold _resetForTesting.
    cbn [signalListeners beforeExitListeners leaseManagerRef isShuttingDown].
    rewrite (removeListener_last SIGTERM (signalListeners p) [SIGINT; SIGHUP] eq_refl).
    rewrite (removeListener_last SIGINT (signalListeners p) [SIGHUP] eq_refl).
    rewrite (removeListener_last SIGHUP (signalListeners p) [] eq_refl).
    rewrite app_nil_r. reflexivity.
Qed.

End ResetProperties.

(** ** The further properties on the example runtime *)

Module MoreExamples.

Definition ok_acquire : Reply LeaseAcquireResponse.t :=
  Responded 200 (Some Sample.MOCK_LEASE_RESPONSE).

Definition bad_expiry : LeaseAcquireResponse.t :=
  LeaseAcquireResponse.mk 123 "enc:test" "soon" (Num.of_Z 1800).

Definition history := perform_all Sample.decryptData Sample.parseDate Sample.toISOString.

(** Acquire, then release: no lease and no timer is left. *)
Lemma timers_only_while_lease_held_witness :
  let s := fst (history [OpAcquire ok_acquire 1737718200000; OpRelease (Responded 200 None)]
                  Sample.fresh) in
  lease s = None /\ heartbeatTimer s = None /\ idleCheckTimer s = None.
Proof.
  cbv zeta.
  assert (H : lease (fst (history [OpAcquire ok_acquire 1737718200000;
                                       OpRelease (Responded 200 None)] Sample.fresh)) = None)
    by reflexivity.
  split; [exact H |].
  exact (timers_only_while_lease_held Sample.decryptData Sample.parseDate Sample.toISOString
           "11111111-1111-4111-8111-111111111111" 1737718200000 Sample.config
           [OpAcquire ok_acquire 1737718200000; OpRelease (Responded 200 None)] H).
Defined.

Lemma acquire_returns_stored_lease_witness :
  let r := acquire Sample.decryptData Sample.parseDate ok_acquire 1737718200000 Sample.fresh in
  outcome r = Returned Examples.lease123
  /\ getLease (final r) = Some Examples.lease123
  /\ lastActivity (final r) = 1737718200000
  /\ fetches (effects r) = [AcquireReq (clientId Sample.fresh)].
Proof.
  cbv zeta.
  assert (H : outcome (acquire Sample.decryptData Sample.parseDate ok_acquire
                         1737718200000 Sample.fresh) = Returned Examples.lease123)
    by reflexivity.
  pose proof (acquire_returns_stored_lease Sample.decryptData Sample.parseDate
                Sample.fresh ok_acquire 1737718200000 Examples.lease123 H) as W.
  cbv zeta in W. destruct W as (W1 & _ & W3 & _ & W5 & _).
  split; [exact H |]. split; [exact W1 |]. split; [exact W3 | exact W5].
Defined.

Lemma reportIssue_returns_stored_lease_witness :
  let r := reportIssue Sample.decryptData Sample.parseDate "Rate limited" None
             Sample.switchEnv Sample.holding in
  outcome r = Returned Examples.lease456
  /\ getLease (final r) = Some Examples.lease456
  /\ exists l0, lease Sample.holding = Some l0
                /\ fetches (effects r)
                   = [ReportIssueReq (leaseId l0) (clientId Sample.holding) "Rate limited" None].
Proof.
  cbv zeta.
  assert (H : outcome (reportIssue Sample.decryptData Sample.parseDate "Rate limited" None
                         Sample.switchEnv Sample.holding) = Returned Examples.lease456)
    by reflexivity.
  pose proof (reportIssue_returns_stored_lease Sample.decryptData Sample.parseDate
                Sample.holding "Rate limited" None Sample.switchEnv Examples.lease456 H) as W.
  cbv zeta in W. destruct W as (W1 & _ & _ & _ & _ & _ & W7).
  split; [exact H |]. split; [exact W1 | exact W7].
Defined.

Lemma renew_invalid_expiry_witness :
  let r := renew Sample.parseDate
             (Responded 200 (Some (LeaseRenewResponse.mk "soon" (Num.of_Z 1800))))
             Sample.holding in
  outcome r = Thrown (RenewFailure InvalidTimeValue)
  /\ lease (final r) = Some {| leaseId := 123; account := account Examples.lease123;
                               expiresAt := None |}.
Proof.
  cbv zeta.
  pose proof (renew_invalid_expiry Sample.parseDate Sample.holding Examples.lease123 200
                (LeaseRenewResponse.mk "soon" (Num.of_Z 1800))
                Examples.holding_lease eq_refl eq_refl) as W.
  cbv zeta in W. destruct W as (W1 & W2 & _).
  split; [exact W1 | exact W2].
Defined.

Lemma acquire_raises_after_storing_lease_witness :
  let r := acquire Sample.decryptData Sample.parseDate (Responded 200 (Some bad_expiry))
             1737718200000 Sample.fresh in
  outcome r = Thrown (AcquireFailure InvalidTimeValue)
  /\ hasActiveLease (final r) = true
  /\ heartbeatTimer (final r) = Some (Num.of_Z 900000)
  /\ idleCheckTimer (final r) = Some (Num.of_Z 60000).
Proof.
  cbv zeta.
  pose proof (acquire_raises_after_storing_lease Sample.decryptData Sample.parseDate Sample.fresh 200
                bad_expiry
                (DecryptedAccountData.mk "test@example.com" "refresh-token-123"
                   (Some "project-123"%string))
                1737718200000 eq_refl eq_refl eq_refl) as W.
  cbv zeta in W. destruct W as (W1 & W2 & _ & W4 & W5).
  split; [exact W1 |]. split; [exact W2 |]. split; [exact W4 | exact W5].
Defined.

Lemma refused_switch_changes_nothing_witness :
  let env := mkSwitchEnv (Responded 503 None) 1737718500000 in
  let r := reportIssue Sample.decryptData Sample.parseDate "test" None env Sample.holding in
  outcome r = Thrown (SwitchFailure (HttpStatus 503))
  /\ final r = Sample.holding
  /\ fetches (effects r) = [ReportIssueReq 123 (clientId Sample.holding) "test" None].
Proof.
  cbv zeta.
  exact (refused_switch_changes_nothing Sample.decryptData Sample.parseDate
           Sample.holding Examples.lease123 "test" None
           (mkSwitchEnv (Responded 503 None) 1737718500000) (HttpStatus 503)
           Examples.holding_lease (sr_status 503 None eq_refl)).
Defined.

(** After a release: ticks of timers that still existed, a renewal, a
    switch, a quota poll and a rate-limit decision send nothing. *)
Definition after_release : list Operation :=
  [OpHeartbeatTick (Responded 200 (Some Sample.MOCK_RENEW_RESPONSE))
     (Sample.quotaEnv 1737719100000 Examples.token Sample.healthy_models);
   OpIdleTick 1737719460000 (Responded 200 None);
   OpReportIssue "test" None Sample.switchEnv;
   OpCheckQuota (Sample.quotaEnv 1737719100000 Examples.token Sample.healthy_models);
   OpHandleRateLimit 60000 None None
     (mkRateLimitEnv 1737719100000 1737719100000 Sample.switchEnv)].

Lemma no_lease_no_requests_witness :
  let released := final (release (Responded 200 None) Sample.holding) in
  fetches (snd (history after_release released)) = []
  /\ lease (fst (history after_release released)) = None.
Proof.
  cbv zeta.
  exact (no_lease_no_requests Sample.decryptData Sample.parseDate Sample.toISOString
           after_release (final (release (Responded 200 None) Sample.holding))
           eq_refl eq_refl).
Defined.

(** An idle timeout of 20 minutes, activity 19 minutes after the acquire, a
    tick 21 minutes after the acquire. *)
Lemma updateActivity_postpones_release_witness :
  let t0 := 1737718200000 in
  let s1 := final (updateActivity (t0 + 19 * 60000) Sample.holding) in
  idleTimeoutMs Sample.holding = 1200000
  /\ idleTick (t0 + 21 * 60000) (Responded 200 None) s1 = mkRun (Returned tt) s1 []
  /\ lease s1 = lease Sample.holding.
Proof.
  cbv zeta.
  pose proof (updateActivity_postpones_release Sample.holding
                (1737718200000 + 19 * 60000) (1737718200000 + 21 * 60000)
                (Responded 200 None)) as W.
  cbv zeta in W. destruct W as (W1 & W2 & _); [reflexivity |].
  split; [reflexivity |]. split; [exact W1 | exact W2].
Defined.

Definition unknown_models : Obj ModelInfo :=
  [("gemini-3-pro"%string, mkModelInfo None);
   ("gemini-3-flash"%string, mkModelInfo (Some (QuotaInfo.mk None None)))].

Lemma missing_fraction_witness :
  fst (scan_models (Object_values unknown_models)) = Num.of_Z 1
  /\ Forall (fun q => report_percentage q = Num.of_Z 0)
       (map report_entry (Object_entries unknown_models)).
Proof.
  apply (missing_fraction_full_in_minimum_empty_in_report unknown_models).
  intros m [<- | [<- | []]] qi H; cbn in H; [discriminate |].
  inversion H. reflexivity.
Defined.

Lemma checkQuota_snapshot_bounds_witness :
  let env := Sample.quotaEnv 1737718260000 Examples.token Sample.healthy_models in
  let q := {| remaining := Num.of_Z 80; total := 100; percentage := Num.decimal 8 10 |} in
  outcome (checkQuota Sample.decryptData Sample.parseDate Sample.toISOString env
             Sample.holding) = Returned (Some q)
  /\ exists (l : LeaseState) (st : Z) (qd : QuotaData),
       lease Sample.holding = Some l
       /\ q_models env = Responded st (Some qd)
       /\ ok (mkResponse st (Some qd)) = true
       /\ Num.leb (percentage q) (Num.of_Z 1) = true.
Proof.
  cbv zeta.
  assert (H : outcome (checkQuota Sample.decryptData Sample.parseDate Sample.toISOString
                         (Sample.quotaEnv 1737718260000 Examples.token Sample.healthy_models)
                         Sample.holding)
              = Returned (Some {| remaining := Num.of_Z 80; total := 100;
                                  percentage := Num.decimal 8 10 |}))
    by reflexivity.
  split; [exact H |].
  destruct (checkQuota_snapshot_bounds Sample.decryptData Sample.parseDate Sample.toISOString
              Sample.holding _ _ H)
    as (l & st1 & tok & st & qd & W1 & _ & _ & _ & W2 & W3 & _ & _ & _ & W7 & _).
  exists l, st, qd. split; [exact W1 |]. split; [exact W2 |]. split; [exact W3 | exact W7].
Defined.

Definition ready : Lifecycle.Process :=
  Lifecycle.initLifecycle Sample.holding Lifecycle.initial.

(** A first SIGTERM whose release is answered 500 in time, and one whose
    release is not answered before the watchdog fires. *)
Lemma handleShutdown_sequence_witness :
  let r := Lifecycle.handleShutdown Lifecycle.SIGTERM
             (Lifecycle.InTime (Responded 500 None)) ready in
  let late := Lifecycle.handleShutdown Lifecycle.SIGTERM Lifecycle.TooLate ready in
  Lifecycle.isShuttingDown ready = false
  /\ Lifecycle.isShuttingDown (fst r) = true
  /\ (exists m', Lifecycle.leaseManagerRef (fst r) = Some m' /\ hasActiveLease m' = false)
  /\ snd late
     = Lifecycle.EvWatchdogStart 10000
       :: map Lifecycle.EvManager (effects (release_local Sample.holding))
       ++ [Lifecycle.EvManager (EvFetch (ReleaseReq 123 (clientId Sample.holding)));
           Lifecycle.EvExit 1]
  /\ ~ In Lifecycle.EvWatchdogClear (snd late).
Proof.
  cbv zeta.
  pose proof (ShutdownProperties.handleShutdown_sequence Lifecycle.SIGTERM
                (Lifecycle.InTime (Responded 500 None)) ready eq_refl) as W.
  pose proof (ShutdownProperties.handleShutdown_sequence Lifecycle.SIGTERM
                Lifecycle.TooLate ready eq_refl) as V.
  cbv zeta in W, V.
  destruct W as (W1 & _ & _ & _ & _ & _ & _ & W8).
  destruct V as (_ & _ & _ & _ & _ & V6 & _).
  destruct (V6 Sample.holding Examples.lease123 eq_refl eq_refl Examples.holding_lease)
    as (V61 & V62 & _).
  split; [reflexivity |]. split; [exact W1 |].
  split.
  - destruct (W8 Sample.holding eq_refl) as (m' & Hm & Hl & _).
    exists m'. split; [exact Hm | exact Hl].
  - split; [exact V61 | exact V62].
Defined.

Lemma initLifecycle_during_shutdown_witness :
  let stopped := fst (Lifecycle.handleShutdown Lifecycle.SIGINT
                        (Lifecycle.InTime (Responded 200 None)) ready) in
  let p' := Lifecycle.initLifecycle Sample.holding stopped in
  Lifecycle.isShuttingDown stopped = true
  /\ Lifecycle.leaseManagerRef p' = Some Sample.holding
  /\ ShutdownProperties.run_exit
       [ShutdownProperties.OnSignal Lifecycle.SIGTERM (Lifecycle.InTime (Responded 200 None));
        ShutdownProperties.OnBeforeExit (Responded 200 None)] p'
     = (p', []).
Proof.
  cbv zeta.
  pose proof (ShutdownProperties.initLifecycle_during_shutdown Sample.holding
                (fst (Lifecycle.handleShutdown Lifecycle.SIGINT
                        (Lifecycle.InTime (Responded 200 None)) ready))
                [ShutdownProperties.OnSignal Lifecycle.SIGTERM
                   (Lifecycle.InTime (Responded 200 None));
                 ShutdownProperties.OnBeforeExit (Responded 200 None)]
                eq_refl) as W.
  cbv zeta in W. destruct W as (W1 & _ & _ & W4).
  split; [reflexivity |]. split; [exact W1 | exact W4].
Defined.

End MoreExamples.
